(** * Glimmer-grabber: the card-identification pipeline

    A shallow embedding of the processing pipeline of glimmer-grabber:
    - [Tasks]: the Celery task [process_image_task] of
      processing_service/tasks.py with the ledger check
      [is_image_processed] of processing_service/utils/file_utils.py;
    - [Segmenter]: [segment_cards], [identify_card_name] and
      [sanitize_filename] of src/core/card_segmenter.py;
    - [Inference]: the confidence filter of [run_inference]
      (src/core/inference.py);
    - [Fetcher]: [CardDataFetcher] of src/app/card_data_fetcher.py;
    - [Extraction]: [get_card_details] and [extract_data] of
      processing_service/core/data_extraction.py. *)

From Stdlib Require Import List String Ascii ZArith QArith Qround Lia Bool.
Import ListNotations.

(** Python's exceptions carried by fallible code. *)
Inductive result (A E : Type) : Type :=
| Ok : A -> result A E
| Err : E -> result A E.
Arguments Ok {A E} _.
Arguments Err {A E} _.

Module Tasks.

Local Open Scope string_scope.

(** The [status] column of [ProcessingJob]; the task writes these four
    string literals. *)
Inductive Status := PENDING | RUNNING | COMPLETED | FAILED.

Definition status_eqb (a b : Status) : bool :=
  match a, b with
  | PENDING, PENDING | RUNNING, RUNNING
  | COMPLETED, COMPLETED | FAILED, FAILED => true
  | _, _ => false
  end.

(** The ORM object [ProcessingJob] as the task sees it; [error_message]
    is the attribute the except-branch assigns. *)
Record ProcessingJob := mkJob {
  job_id : Z;
  status : Status;
  error_message : option string
}.

(** The session state: jobs, the [processed_images] ledger (hash column),
    the [cards] table as (job_id, content) rows, and the log of committed
    status writes, in order, as (job id, status). *)
Record DB := mkDB {
  jobs : list ProcessingJob;
  processed_images : list string;
  cards : list (Z * string);
  status_writes : list (Z * Status)
}.

(** The collaborators of one task run: the S3 object store ([None] when
    [get_object] raises), [core.image_processing.process_image],
    [core.data_extraction.extract_data] and [str] on its results. *)
Record Env := mkEnv {
  s3_get : string -> option (list Byte.byte);
  process_image : list Byte.byte -> result (list string) string;
  extract_data : list string -> result (list string) string
}.

(** The two exception classes of tasks.py. *)
Inductive TaskError :=
| ImageProcessingError (msg : string)
| DataExtractionError (msg : string).

Definition error_str (e : TaskError) : string :=
  match e with
  | ImageProcessingError m => m
  | DataExtractionError m => m
  end.

(** How a run of the task ends: it returns, or it raises. *)
Inductive Outcome :=
| Returned
| Raised (e : TaskError).

Section Task.

(** [hashlib.sha256(b).hexdigest()]: a function of the bytes. *)
Variable sha256_hex : list Byte.byte -> string.

Fixpoint find_job (id : Z) (js : list ProcessingJob) : option ProcessingJob :=
  match js with
  | [] => None
  | j :: js' => if Z.eqb (job_id j) id then Some j else find_job id js'
  end.

(** [job.status = s; db.commit()] (and [job.error_message = m] when given). *)
Definition set_status (db : DB) (id : Z) (s : Status) (m : option string) : DB :=
  mkDB (map (fun j => if Z.eqb (job_id j) id
                      then mkJob (job_id j) s
                             (match m with Some _ => m | None => error_message j end)
                      else j) (jobs db))
       (processed_images db) (cards db)
       (status_writes db ++ [(id, s)]).

(** [download_image_from_s3]: any exception of [get_object] is swallowed
    and [b""] returned. *)
Definition download_image_from_s3 (env : Env) (image_key : string) : list Byte.byte :=
  match s3_get env image_key with
  | Some body => body
  | None => []
  end.

(** [is_image_processed]: a [ProcessedImage] row with the hash exists. *)
Definition is_image_processed (image_bytes : list Byte.byte) (db : DB) : bool :=
  existsb (String.eqb (sha256_hex image_bytes)) (processed_images db).

(** The except-branch: [FAILED], [error_message = str(e)], re-raise. *)
Definition fail_job (db : DB) (id : Z) (e : TaskError) : DB * Outcome :=
  (set_status db id FAILED (Some (error_str e)), Raised e).

(** [process_image_task(jobId, image_key)], one run. *)
Definition process_image_task (env : Env) (db : DB) (jobId : Z) (image_key : string)
  : DB * Outcome :=
  match find_job jobId (jobs db) with
  | None => (db, Returned)
  | Some _ =>
    let db1 := set_status db jobId RUNNING None in
    let image_bytes := download_image_from_s3 env image_key in
    if is_image_processed image_bytes db1 then
      (set_status db1 jobId COMPLETED None, Returned)
    else
      match process_image env image_bytes with
      | Err e => fail_job db1 jobId (ImageProcessingError ("Error processing image: " ++ e))
      | Ok processed_data =>
        match extract_data env processed_data with
        | Err e => fail_job db1 jobId (DataExtractionError ("Error extracting data: " ++ e))
        | Ok card_details =>
          let db2 := mkDB (jobs db1) (processed_images db1)
                          (cards db1 ++ map (fun c => (jobId, c)) card_details)
                          (status_writes db1) in
          let db3 := mkDB (jobs db2) (processed_images db2 ++ [sha256_hex image_bytes])
                          (cards db2) (status_writes db2) in
          (set_status db3 jobId COMPLETED None, Returned)
        end
      end
  end.

(** The decorator [@celery_app.task(autoretry_for=(Exception,),
    max_retries=3)]. *)
Definition max_retries : nat := 3.

(** What an attempt's fresh session ([next(get_db())]) loads: the
    committed statuses, ledger and card rows. [error_message] is no column
    of [ProcessingJob] (models.py), so the value an earlier attempt
    assigned to its own ORM object is not seen. *)
Definition reload_jobs (db : DB) : DB :=
  mkDB (map (fun j => mkJob (job_id j) (status j) None) (jobs db))
       (processed_images db) (cards db) (status_writes db).

(** Celery's autoretry: an exception of [autoretry_for] raised by the task
    body triggers [task.retry(exc=...)], which re-runs the task while
    fewer than [max_retries] retries have been made and raises the
    original exception otherwise. [envs k] is what the collaborators do on
    attempt [k]; each attempt starts from the committed state; the result
    carries the number of attempts made, and its [DB] shows the last
    attempt's ORM objects. *)
Fixpoint run_with_retries (retries_left : nat) (k : nat) (envs : nat -> Env)
         (db : DB) (jobId : Z) (image_key : string) : DB * Outcome * nat :=
  match process_image_task (envs k) (reload_jobs db) jobId image_key with
  | (db', Returned) => (db', Returned, S k)
  | (db', Raised e) =>
    match retries_left with
    | O => (db', Raised e, S k)
    | S r => run_with_retries r (S k) envs db' jobId image_key
    end
  end.

Definition celery_process_image_task (envs : nat -> Env) (db : DB)
           (jobId : Z) (image_key : string) : DB * Outcome * nat :=
  run_with_retries max_retries 0 envs db jobId image_key.

End Task.

End Tasks.

(** ** src/core/card_segmenter.py *)

Module Segmenter.
Local Open Scope Z_scope.

(** A BGR image as numpy holds it: rows of pixels. [image.shape[0]] is
    the number of rows and [image.shape[1]] the length of a row. *)
Definition Pixel := (Z * Z * Z)%type.
Definition Image := list (list Pixel).

Definition shape0 (img : Image) : Z := Z.of_nat (List.length img).
Definition shape1 (img : Image) : Z :=
  match img with [] => 0 | r :: _ => Z.of_nat (List.length r) end.

(** [image.size]: the number of elements, three channels per pixel. *)
Definition size (img : Image) : Z :=
  fold_right (fun r acc => 3 * Z.of_nat (List.length r) + acc) 0 img.

(** Python's [int] on a finite float (a rational): truncation toward 0. *)
Definition py_int (q : Q) : Z :=
  if Qle_bool 0 q then Qfloor q else Qceiling q.

(** [l[lo:hi]] for non-negative bounds. *)
Definition py_slice {A} (lo hi : Z) (l : list A) : list A :=
  firstn (Z.to_nat (hi - lo)) (skipn (Z.to_nat lo) l).

(** One raw YOLO detection: [masks.data[i]], [boxes.xyxy[i]] and
    [boxes.conf[i]] ([None] when [boxes.conf] is [None]). *)
Record RawDetection := mkRaw {
  rd_mask : list (list bool);
  rd_bbox : Q * Q * Q * Q;
  rd_conf : option Q
}.

(** What [model.predict] hands back: nothing usable ([results] empty or
    [masks]/[boxes] [None]), or the detections. *)
Inductive Prediction :=
| NoResults
| Detections (ds : list RawDetection).

(** The text-recognition backend on a crop, its OpenCV preprocessing
    (grayscale, CLAHE, median blur, adaptive threshold) included:
    [pytesseract.image_to_string] returns text, raises
    [TesseractNotFoundError], or anything raises another exception. *)
Inductive OcrOutcome :=
| OcrText (s : list N)
| TesseractNotFound
| OcrFailure (msg : string).

(** The collaborators of [CardSegmenter]: the model and the OCR chain.
    [model.predict] may raise (the string is its message). *)
Record SegEnv := mkSegEnv {
  predict : Image -> result Prediction string;
  ocr : Image -> OcrOutcome
}.

(** One entry of the returned list: the dict with keys [mask], [bbox],
    [confidence], [image] and [card_name]. *)
Record SegInfo := mkSegInfo {
  si_mask : list (list bool);
  si_bbox : Q * Q * Q * Q;
  si_confidence : option Q;
  si_image : Image;
  si_card_name : list N
}.

(** The warning of the skip branch, with the instance number [i+1] and the
    integer box it reports. *)
Inductive LogRecord :=
| BBoxWarning (instance : nat) (x1 y1 x2 y2 : Z).

(** A Python [str] is a sequence of code points; [codepoints] gives
    those of a literal of the source. *)
Definition codepoints (s : string) : list N :=
  map (fun c => N.of_nat (nat_of_ascii c)) (list_ascii_of_string s).

(** [str.isspace] on one code point, the set [str.strip()] removes:
    TAB..CR, FS..US, SPACE, NEL, NO-BREAK SPACE, OGHAM SPACE MARK,
    EN QUAD..HAIR SPACE, LINE and PARAGRAPH SEPARATOR, NARROW NO-BREAK
    SPACE, MEDIUM MATHEMATICAL SPACE and IDEOGRAPHIC SPACE. *)
Definition is_py_space (c : N) : bool :=
  (N.leb 9 c && N.leb c 13) || (N.leb 28 c && N.leb c 32) ||
  N.eqb c 133 || N.eqb c 160 || N.eqb c 5760 ||
  (N.leb 8192 c && N.leb c 8202) || N.eqb c 8232 || N.eqb c 8233 ||
  N.eqb c 8239 || N.eqb c 8287 || N.eqb c 12288.

Fixpoint drop_spaces (l : list N) : list N :=
  match l with
  | [] => []
  | c :: l' => if is_py_space c then drop_spaces l' else l
  end.

(** [str.strip()]. *)
Definition py_strip (s : list N) : list N :=
  rev (drop_spaces (rev (drop_spaces s))).

(** [identify_card_name(image)]. *)
Definition identify_card_name (env : SegEnv) (image : Image) : list N :=
  if Z.eqb (size image) 0 then codepoints "Unknown Card (Empty Segment)"
  else
    match ocr env image with
    | OcrText s =>
      let extracted_text := py_strip s in
      match extracted_text with
      | [] => codepoints "Unknown Card"
      | _ => extracted_text
      end
    | TesseractNotFound => codepoints "Error: Tesseract Not Found"
    | OcrFailure _ => codepoints "Error Identifying Card Name"
    end.

(** The bounds test of [segment_cards] on the integer box. *)
Definition bbox_valid (image : Image) (x1 y1 x2 y2 : Z) : bool :=
  (0 <=? x1) && (x1 <? x2) && (x2 <=? shape1 image) &&
  (0 <=? y1) && (y1 <? y2) && (y2 <=? shape0 image).

(** [image[y1:y2, x1:x2]]. *)
Definition crop (image : Image) (x1 y1 x2 y2 : Z) : Image :=
  map (py_slice x1 x2) (py_slice y1 y2 image).

(** The body of the loop of [segment_cards] for instance [i]: the entries
    it appends (the dict is appended at two places in the loop) and the
    warnings it logs. Saving the crop, when configured, goes through
    [_save_individual_card_image], which logs and swallows its own errors
    and leaves the entries alone. *)
Definition segment_one (env : SegEnv) (image : Image) (i : nat) (d : RawDetection)
  : list SegInfo * list LogRecord :=
  let '(bx1, by1, bx2, by2) := rd_bbox d in
  let x1 := py_int bx1 in let y1 := py_int by1 in
  let x2 := py_int bx2 in let y2 := py_int by2 in
  if negb (bbox_valid image x1 y1 x2 y2)
  then ([], [BBoxWarning (S i) x1 y1 x2 y2])
  else
    let segmented_image := crop image x1 y1 x2 y2 in
    let card_name := identify_card_name env segmented_image in
    let segmentation_info :=
      mkSegInfo (rd_mask d) (rd_bbox d) (rd_conf d) segmented_image card_name in
    ([segmentation_info; segmentation_info], []).

Fixpoint segment_loop (env : SegEnv) (image : Image) (i : nat) (ds : list RawDetection)
  : list SegInfo * list LogRecord :=
  match ds with
  | [] => ([], [])
  | d :: ds' =>
    let '(o, l) := segment_one env image i d in
    let '(o', l') := segment_loop env image (S i) ds' in
    (o ++ o', l ++ l')
  end.

(** [segment_cards(image, original_image_path)]: the entries and the
    warnings, or the [RuntimeError] it raises. *)
Definition segment_cards (env : SegEnv) (image : Image)
  : result (list SegInfo * list LogRecord) string :=
  match predict env image with
  | Err e => Err ("Segmentation failed due to an internal error: " ++ e)%string
  | Ok NoResults => Ok ([], [])
  | Ok (Detections ds) => Ok (segment_loop env image 0 ds)
  end.

(** [sanitize_filename] on the code points of a Python [str]. *)
Definition is_allowed (c : N) : bool :=
  (N.leb 97 c && N.leb c 122) || (N.leb 65 c && N.leb c 90) ||
  (N.leb 48 c && N.leb c 57) || N.eqb c 95 || N.eqb c 46 || N.eqb c 45.

Definition underscore : N := 95.

(** [re.sub(r"[^a-zA-Z0-9_.-]", "_", s)]. *)
Definition replace_disallowed (s : list N) : list N :=
  map (fun c => if is_allowed c then c else underscore) s.

(** [re.sub(r"__+", "_", s)]: each maximal run of two or more underscores
    becomes one; [prev] says the last kept character was an underscore. *)
Fixpoint collapse_underscores (prev : bool) (s : list N) : list N :=
  match s with
  | [] => []
  | c :: s' =>
    if N.eqb c underscore
    then (if prev then collapse_underscores true s'
          else c :: collapse_underscores true s')
    else c :: collapse_underscores false s'
  end.

Definition strip_char (c : N) : bool := N.eqb c 95 || N.eqb c 46 || N.eqb c 45.

Fixpoint lstrip_chars (s : list N) : list N :=
  match s with
  | [] => []
  | c :: s' => if strip_char c then lstrip_chars s' else s
  end.

(** [s.strip('_.-')]. *)
Definition strip_chars (s : list N) : list N := rev (lstrip_chars (rev (lstrip_chars s))).

Definition max_length : nat := 200.

Definition sanitize_filename (filename_str : list N) : list N :=
  let sanitized := replace_disallowed filename_str in
  let sanitized := collapse_underscores false sanitized in
  let sanitized := strip_chars sanitized in
  let sanitized := match sanitized with [] => codepoints "invalid_name" | _ => sanitized end in
  firstn max_length sanitized.


(** No two consecutive underscores. *)
Definition NoDoubleUnderscore (l : list N) : Prop :=
  forall p q, l <> p ++ underscore :: underscore :: q.

(** All rows as long as [image.shape[1]]: a numpy array. *)
Definition rectangular (image : Image) : Prop :=
  forall r, In r image -> Z.of_nat (List.length r) = shape1 image.

(** Neither first nor last code point is [_], [.] or [-]. *)
Definition starts_clean (s : list N) : bool :=
  match s with [] => false | c :: _ => negb (strip_char c) end.
Definition ends_clean (s : list N) : bool := starts_clean (rev s).

(** A name [sanitize_filename] can return unchanged. *)
Definition safe_name (s : list N) : Prop :=
  (List.length s <= max_length)%nat /\ forallb is_allowed s = true /\
  NoDoubleUnderscore s /\ starts_clean s = true /\ ends_clean s = true.

(** A non-empty text whose first and last code points are not
    whitespace. *)
Definition trimmed (l : list N) : bool :=
  match l with
  | [] => false
  | c :: _ => negb (is_py_space c) && negb (is_py_space (last l c))
  end.

(** Whether two underscores follow each other somewhere in [l]. *)
Fixpoint has_double (l : list N) : bool :=
  match l with
  | a :: ((b :: _) as l') => (N.eqb a underscore && N.eqb b underscore) || has_double l'
  | _ => false
  end.

End Segmenter.

(** ** src/core/inference.py *)

Module Inference.
Import Segmenter.

(** The list comprehension of [run_inference]:
    [result.get("confidence", 0.0) >= confidence_threshold]. A [None]
    confidence makes [>=] raise [TypeError], which the generic
    [except Exception] turns into [[]]. *)
Definition confidence_filter (results : list SegInfo) (t : Q) : list SegInfo :=
  if existsb (fun r => match si_confidence r with None => true | Some _ => false end) results
  then []
  else filter (fun r => match si_confidence r with
                        | Some c => Qle_bool t c
                        | None => false
                        end) results.

(** [run_inference(image, segmenter, confidence_threshold, path)]; a
    [RuntimeError] of [segment_cards] is re-raised. *)
Definition run_inference (env : SegEnv) (image : Image) (confidence_threshold : Q)
  : result (list SegInfo) string :=
  match segment_cards env image with
  | Err e => Err e
  | Ok (segmentation_results, _) =>
    match segmentation_results with
    | [] => Ok []
    | _ => Ok (confidence_filter segmentation_results confidence_threshold)
    end
  end.

End Inference.

(** ** src/app/card_data_fetcher.py *)

Module Fetcher.
Local Open Scope Z_scope.

Local Set Warnings "-register-all".

(** Decoded JSON values. *)
Inductive json :=
| JNull
| JBool (b : bool)
| JNum (n : Z)
| JStr (s : string)
| JArr (items : list json)
| JObj (fields : list (string * json)).

(** The three exception classes of src/app/exceptions.py. *)
Inductive FetchError := APIFetchError | CacheError | DataFormatError.

(** What [open] and [json.load] find in the cache file: the decoded value,
    or a read or decode failure. *)
Inductive CacheContent :=
| Unreadable
| Parsed (v : json).

(** The cache file, when it exists: its modification time and content. *)
Record CacheFile := mkCacheFile {
  mtime : Z;
  content : CacheContent
}.

Definition FS := option CacheFile.

(** The GET to [api_url]: a [RequestException] (network failure, timeout,
    or an HTTP error status through [raise_for_status]), or a body that
    [response.json()] decodes ([None] when it cannot). *)
Inductive ApiResponse :=
| RequestFailed
| Body (payload : option json).

(** How the write of [_save_to_cache] goes: it completes; [os.makedirs]
    or [open] raises, and nothing is written; or [json.dump] (or the close
    that flushes it) raises after [open(cache_file, "w")] has truncated
    the file, which is left, stamped with the time of the write, holding
    whatever had been written ([written]). *)
Inductive CacheWrite :=
| WriteOk
| OpenFails
| DumpFails (written : CacheContent).

(** The fetcher's settings and surroundings: the remote answer, how the
    cache write goes, and [cache_duration]. *)
Record FetchEnv := mkFetchEnv {
  api_response : ApiResponse;
  cache_write : CacheWrite;
  cache_duration : Z
}.

(** [_is_cache_valid()] at time [now]. *)
Definition is_cache_valid (env : FetchEnv) (fs : FS) (now : Z) : bool :=
  match fs with
  | None => false
  | Some f => (now - mtime f) <? cache_duration env
  end.

(** [_load_from_cache()]: the [DataFormatError] raised inside its [try]
    is caught by its own [except Exception] and re-raised as [CacheError]. *)
Definition load_from_cache (f : CacheFile) : result (list json) FetchError :=
  match content f with
  | Unreadable => Err CacheError
  | Parsed (JArr items) => Ok items
  | Parsed _ => Err CacheError
  end.

Definition is_dict (j : json) : bool :=
  match j with JObj _ => true | _ => false end.

Definition has_key (k : string) (fields : list (string * json)) : bool :=
  existsb (fun kv => String.eqb (fst kv) k) fields.

Fixpoint get_key (k : string) (fields : list (string * json)) : option json :=
  match fields with
  | [] => None
  | (k', v) :: fs => if String.eqb k' k then Some v else get_key k fs
  end.

(** [_validate_card_data_entry(card)] on a dict. *)
Definition validate_card_data_entry (card : json) : bool :=
  match card with
  | JObj fields => forallb (fun f => has_key f fields) ["name"; "type"; "set"]%string
  | _ => false
  end.

(** [card.get("name") in card_names]. *)
Definition name_in (card : json) (card_names : list string) : bool :=
  match card with
  | JObj fields =>
    match get_key "name" fields with
    | Some (JStr n) => existsb (String.eqb n) card_names
    | _ => false
    end
  | _ => false
  end.

Definition filter_by_names (card_names : list string) (data : list json) : list json :=
  match card_names with
  | [] => data
  | _ => filter (fun c => name_in c card_names) data
  end.

(** The cache branch of [_load_and_validate_data]: [Some] data when the
    cache is served, [None] when it falls through to the API. *)
Definition try_cache (env : FetchEnv) (fs : FS) (now : Z) : option (list json) :=
  if is_cache_valid env fs now then
    match fs with
    | None => None
    | Some f =>
      match load_from_cache f with
      | Err _ => None
      | Ok cached_data =>
        if forallb is_dict cached_data
        then Some (filter validate_card_data_entry cached_data)
        else None
      end
    end
  else None.

(** [_save_to_cache(card_data)]: the cache file afterwards, and the
    [CacheError] it raises, if any. *)
Definition save_to_cache (env : FetchEnv) (fs : FS) (now : Z) (card_data : list json)
  : FS * option FetchError :=
  match cache_write env with
  | WriteOk => (Some (mkCacheFile now (Parsed (JArr card_data))), None)
  | OpenFails => (fs, Some CacheError)
  | DumpFails written => (Some (mkCacheFile now written), Some CacheError)
  end.

(** The API branch of [_load_and_validate_data]; one network request. *)
Definition fetch_from_api (env : FetchEnv) (fs : FS) (now : Z) (card_names : list string)
  : result (list json) FetchError * FS :=
  match api_response env with
  | RequestFailed => (Err APIFetchError, fs)
  (* Since requests 2.27 [response.json()] raises
      [requests.exceptions.JSONDecodeError], a [RequestException] as well
      as a [json.JSONDecodeError]: the first handler, [APIFetchError],
      takes it. *)
  | Body None => (Err APIFetchError, fs)
  | Body (Some (JArr api_data_raw)) =>
    let validated_api_data :=
      filter (fun c => is_dict c && validate_card_data_entry c) api_data_raw in
    match save_to_cache env fs now validated_api_data with
    | (fs', Some e) => (Err e, fs')
    | (fs', None) => (Ok (filter_by_names card_names validated_api_data), fs')
    end
  | Body (Some _) => (Err DataFormatError, fs)
  end.

(** [fetch_card_data(card_names)] at time [now]: its result, the cache
    file afterwards, and the number of network requests it made. Every
    error the core raises is one of the three known ones, which
    [fetch_card_data] re-raises unchanged. *)
Definition fetch_card_data (env : FetchEnv) (fs : FS) (now : Z) (card_names : list string)
  : result (list json) FetchError * FS * nat :=
  match try_cache env fs now with
  | Some validated_data => (Ok (filter_by_names card_names validated_data), fs, 0%nat)
  | None =>
    let '(r, fs') := fetch_from_api env fs now card_names in (r, fs', 1%nat)
  end.

End Fetcher.

(** ** The data extraction of the processing service
    (src/processing_service/core/data_extraction.py) *)

Module Extraction.
Import Fetcher.
Local Open Scope string_scope.

(** Python truthiness of a decoded JSON value. *)
Definition truthy (j : json) : bool :=
  match j with
  | JNull => false
  | JBool b => b
  | JNum n => negb (Z.eqb n 0)
  | JStr s => negb (String.eqb s "")
  | JArr l => match l with [] => false | _ => true end
  | JObj f => match f with [] => false | _ => true end
  end.

(** [get_card_details(card_name)]: [lookup] is the GET to
    [LORCANA_API_URL/cards/card_name], [None] when it raises a
    [RequestException] (which [raise_for_status] and, since requests 2.27,
    an undecodable body raise); the handler returns [{}]. *)
Definition get_card_details (lookup : list N -> option json) (card_name : list N) : json :=
  match lookup card_name with
  | Some j => j
  | None => JObj []
  end.

(** Python truthiness of a [str]. *)
Definition nonblank (n : list N) : bool := match n with [] => false | _ => true end.

(** [extract_data(card_texts)]; a [str] is its list of code points. *)
Fixpoint extract_data (lookup : list N -> option json) (card_texts : list (list N))
  : list json :=
  match card_texts with
  | [] => []
  | card_text :: rest =>
    let card_name := Segmenter.py_strip card_text in
    match card_name with
    | [] => extract_data lookup rest
    | _ =>
      let details := get_card_details lookup card_name in
      ((if truthy details then [details] else []) ++ extract_data lookup rest)%list
    end
  end.

End Extraction.

(** ** Concrete inputs for the task *)

Module TasksDemo.
Import Tasks.
Local Open Scope string_scope.

(** A stand-in digest: the SHA-256 hex digests of [b""] and of any other
    input are told apart by length only, which is all a run compares. *)
Definition demo_hash (b : list Byte.byte) : string :=
  if Nat.eqb (List.length b) 0
  then "e3b0c44298fc1c149afbf4c8996fb92427ae41e4649b934ca495991b7852b855"
  else "4bf5122f344554c53bde2ebb8cd2b7e3d1600ad631c385a5d7cce23c7785459a".

Definition demo_key : string := "uploads/cards.png".

Definition demo_db (st : Status) (ledger : list string) : DB :=
  mkDB [mkJob 1 st None] ledger [] [].

(** S3 serves the upload; image processing and extraction succeed. *)
Definition ok_env : Env :=
  mkEnv (fun _ => Some [Byte.x89; Byte.x50; Byte.x4e; Byte.x47])
        (fun _ => Ok ["Elsa - Snow Queen"])
        (fun ts => Ok ts).

(** S3 serves bytes that are no image: a deterministic failure. *)
Definition corrupt_env : Env :=
  mkEnv (fun _ => Some [Byte.x00; Byte.x01])
        (fun _ => Err "cannot identify image file")
        (fun ts => Ok ts).

(** S3 is unreachable: [get_object] raises on every attempt. *)
Definition s3_down_env : Env :=
  mkEnv (fun _ => None)
        (fun b => match b with
                  | [] => Err "cannot identify image file"
                  | _ => Ok ["Elsa - Snow Queen"]
                  end)
        (fun ts => Ok ts).

End TasksDemo.

(** ** Concrete inputs for the segmenter *)

Module SegmenterDemo.
Import Segmenter.
Local Open Scope Z_scope.

(** A 6x6 black image. *)
Definition demo_image : Image := repeat (repeat (0, 0, 0) 6) 6.

Definition det_a : RawDetection := mkRaw [] (0, 0, 2, 2)%Q (Some (9 # 10)%Q).
Definition det_b : RawDetection := mkRaw [] (3, 3, 5, 5)%Q (Some (8 # 10)%Q).

Definition demo_seg_env (ds : list RawDetection) : SegEnv :=
  mkSegEnv (fun _ => Ok (Detections ds)) (fun _ => OcrText (codepoints "Elsa - Snow Queen")).

(** The entry [segment_cards] builds for [det_a]. *)
Definition entry_a : SegInfo :=
  mkSegInfo [] (rd_bbox det_a) (rd_conf det_a) (crop demo_image 0 0 2 2) (codepoints "Elsa - Snow Queen").

End SegmenterDemo.

(** ** Concrete inputs for the card data fetcher *)

Module FetcherDemo.
Import Fetcher.
Local Open Scope string_scope.

Definition card_elsa : json :=
  JObj [("name", JStr "Elsa"); ("type", JStr "Character"); ("set", JStr "TFC")].
(** An entry without [type]. *)
Definition card_no_type : json :=
  JObj [("name", JStr "Mickey"); ("set", JStr "TFC")].

(** The API answers with both entries, the cache write completes, and
    [cache_duration] is 100 seconds. *)
Definition demo_fetch_env : FetchEnv :=
  mkFetchEnv (Body (Some (JArr [card_elsa; card_no_type]))) WriteOk 100.

(** Same API, but the cache directory cannot be written. *)
Definition readonly_fetch_env : FetchEnv :=
  mkFetchEnv (Body (Some (JArr [card_elsa; card_no_type]))) OpenFails 100.

(** Same API, but the disk fills up during [json.dump]: the truncated
    file is left empty, which [json.load] cannot read. *)
Definition diskfull_fetch_env : FetchEnv :=
  mkFetchEnv (Body (Some (JArr [card_elsa; card_no_type]))) (DumpFails Unreadable) 100.

(** A card API that knows one name, ["Elsa"]. *)
Definition elsa_lookup (n : list N) : option json :=
  if list_eq_dec N.eq_dec n (Segmenter.codepoints "Elsa") then Some card_elsa else None.

(** A cache file written at time 0. *)
Definition cache_at_0 : FS := Some (mkCacheFile 0 (Parsed (JArr [card_elsa]))).

(** A cache file written at time 50 that cannot be read. *)
Definition broken_cache : CacheFile := mkCacheFile 50 Unreadable.

(** A cache file written at time 50 whose list holds a number. *)
Definition mixed_cache : CacheFile := mkCacheFile 50 (Parsed (JArr [card_elsa; JNum 3])).

End FetcherDemo.

(** ** Facts about the task *)

Module TasksFacts.
Local Open Scope nat_scope.
Import Tasks.

Section Facts.
Variable sha256_hex : list Byte.byte -> string.

Lemma set_status_writes db id s m :
  status_writes (set_status db id s m) = status_writes db ++ [(id, s)].
Proof. reflexivity. Qed.

Lemma set_status_ledger db id s m :
  processed_images (set_status db id s m) = processed_images db.
Proof. reflexivity. Qed.

Lemma set_status_cards db id s m :
  cards (set_status db id s m) = cards db.
Proof. reflexivity. Qed.

Lemma find_job_set_status db id s m j :
  find_job id (jobs db) = Some j ->
  find_job id (jobs (set_status db id s m)) =
    Some (mkJob (job_id j) s (match m with Some _ => m | None => error_message j end)).
Proof.
  destruct db as [js led cs ws]; simpl.
  induction js as [|j' js IH]; simpl; [discriminate|].
  destruct (Z.eqb (job_id j') id) eqn:E; simpl.
  - intros [= <-]. rewrite E. reflexivity.
  - rewrite E. exact IH.
Qed.

Lemma find_job_set_status_some db id s m j :
  find_job id (jobs db) = Some j ->
  exists j', find_job id (jobs (set_status db id s m)) = Some j'.
Proof. intros H. eexists. apply find_job_set_status; exact H. Qed.

Lemma find_job_reload db id j :
  find_job id (jobs db) = Some j ->
  find_job id (jobs (reload_jobs db)) = Some (mkJob (job_id j) (status j) None).
Proof.
  destruct db as [js led cs ws]; simpl.
  induction js as [|j' js IH]; simpl; [discriminate|].
  destruct (Z.eqb (job_id j') id); [intros [= <-]; reflexivity|exact IH].
Qed.

(** One run on an existing job commits RUNNING and then exactly one
    terminal status: COMPLETED when it returns, FAILED when it raises. *)
Lemma run_writes env db id key j :
  find_job id (jobs db) = Some j ->
  exists t, status_writes (fst (process_image_task sha256_hex env db id key))
            = status_writes db ++ [(id, RUNNING); (id, t)]
         /\ (snd (process_image_task sha256_hex env db id key) = Returned -> t = COMPLETED)
         /\ (forall e, snd (process_image_task sha256_hex env db id key) = Raised e -> t = FAILED)
         /\ (exists j', find_job id (jobs (fst (process_image_task sha256_hex env db id key))) = Some j').
Proof.
  intros Hj. unfold process_image_task. rewrite Hj.
  pose proof (find_job_set_status_some db id RUNNING None j Hj) as [j1 Hj1].
  set (db1 := set_status db id RUNNING None) in *.
  pose proof (find_job_set_status_some db1 id COMPLETED None j1 Hj1) as HC.
  pose proof (find_job_set_status_some db1 id FAILED None j1 Hj1) as HF.
  destruct (is_image_processed sha256_hex _ _).
  { exists COMPLETED. cbn [fst snd]. unfold db1; rewrite !set_status_writes, <- app_assoc.
    repeat split; try discriminate. exact HC. }
  destruct (process_image env _) as [pd|e].
  2:{ exists FAILED. cbn [fst snd fail_job]. unfold db1; rewrite !set_status_writes, <- app_assoc.
      repeat split; try discriminate.
      eapply find_job_set_status_some; exact Hj1. }
  destruct (extract_data env pd) as [cds|e].
  2:{ exists FAILED. cbn [fst snd fail_job]. unfold db1; rewrite !set_status_writes, <- app_assoc.
      repeat split; try discriminate.
      eapply find_job_set_status_some; exact Hj1. }
  exists COMPLETED. cbn [fst snd]. rewrite !set_status_writes. cbn [status_writes].
  unfold db1; rewrite set_status_writes, <- app_assoc.
  repeat split; try discriminate.
  eapply find_job_set_status_some. cbn [jobs]. exact Hj1.
Qed.


Lemma is_image_processed_In db b :
  is_image_processed sha256_hex b db = true <-> In (sha256_hex b) (processed_images db).
Proof.
  unfold is_image_processed. rewrite existsb_exists. split.
  - intros [x [Hx He]]. apply String.eqb_eq in He. subst x. exact Hx.
  - intros H. exists (sha256_hex b). split; [exact H | apply String.eqb_refl].
Qed.

(** Under Celery's autoretry, the status writes of one task invocation
    are [n] pairs RUNNING, FAILED (one per failed attempt that was
    retried) followed by RUNNING and a terminal status. *)
Lemma retries_writes (envs : nat -> Env) (id : Z) (key : string) :
  forall (r k : nat) db j, find_job id (jobs db) = Some j ->
  exists (n : nat) t, (n <= r)%nat /\ (t = COMPLETED \/ t = FAILED) /\
    status_writes (fst (fst (run_with_retries sha256_hex r k envs db id key)))
      = status_writes db ++ List.concat (repeat [(id, RUNNING); (id, FAILED)] n)
                         ++ [(id, RUNNING); (id, t)] /\
    snd (run_with_retries sha256_hex r k envs db id key) = S (k + n).
Proof.
  induction r as [|r IH]; intros k db j Hj;
    destruct (run_writes (envs k) (reload_jobs db) id key _ (find_job_reload db id j Hj))
      as [t [Hw [Hret [Hrai [j' Hj']]]]];
    cbn [run_with_retries];
    destruct (process_image_task sha256_hex (envs k) (reload_jobs db) id key) as [db' [|e]] eqn:E;
    cbn [fst snd] in *; cbn [status_writes reload_jobs] in Hw.
  - exists 0, t. split; [lia|]. split; [left; auto|]. split; [rewrite Hw; reflexivity|lia].
  - exists 0, t. split; [lia|]. split; [right; eapply Hrai; reflexivity|].
    split; [rewrite Hw; reflexivity|lia].
  - exists 0, t. split; [lia|]. split; [left; auto|]. split; [rewrite Hw; reflexivity|lia].
  - specialize (Hrai e eq_refl). subst t.
    destruct (IH (S k) db' j' Hj') as [n [t' [Hn [Ht' [Hw' Ha]]]]].
    exists (S n), t'. split; [lia|]. split; [exact Ht'|]. split.
    + rewrite Hw', Hw. simpl. rewrite <- !app_assoc. reflexivity.
    + rewrite Ha. lia.
Qed.

(** One run on an existing job whose image is new and whose
    [process_image] raises: RUNNING, then FAILED with the message. *)
Lemma run_process_fails env db id key j m :
  find_job id (jobs db) = Some j ->
  ~ In (sha256_hex (download_image_from_s3 env key)) (processed_images db) ->
  process_image env (download_image_from_s3 env key) = Err m ->
  process_image_task sha256_hex env db id key =
    (set_status (set_status db id RUNNING None) id FAILED
                (Some ("Error processing image: " ++ m)%string),
     Raised (ImageProcessingError ("Error processing image: " ++ m)%string)).
Proof.
  intros Hj Hn Hp. unfold process_image_task. rewrite Hj.
  destruct (is_image_processed sha256_hex _ _) eqn:Ei.
  - apply is_image_processed_In in Ei. contradiction.
  - rewrite Hp. reflexivity.
Qed.

Lemma retries_all_fail (envs : nat -> Env) (id : Z) (key : string) (msgs : nat -> string) :
  (forall k, process_image (envs k) (download_image_from_s3 (envs k) key) = Err (msgs k)) ->
  forall (r k : nat) db j, find_job id (jobs db) = Some j ->
  (forall k', ~ In (sha256_hex (download_image_from_s3 (envs k') key)) (processed_images db)) ->
  exists db', run_with_retries sha256_hex r k envs db id key =
      (db', Raised (ImageProcessingError ("Error processing image: " ++ msgs (k + r))%string), S (k + r))
    /\ processed_images db' = processed_images db
    /\ find_job id (jobs db') =
         Some (mkJob (job_id j) FAILED (Some ("Error processing image: " ++ msgs (k + r))%string)).
Proof.
  intros Hp. induction r as [|r IH]; intros k db j Hj Hn; cbn [run_with_retries];
    pose proof (find_job_reload db id j Hj) as Hjr;
    rewrite (run_process_fails (envs k) (reload_jobs db) id key _ (msgs k) Hjr (Hn k) (Hp k)).
  - eexists. split; [rewrite Nat.add_0_r; reflexivity|]. split; [reflexivity|].
    rewrite Nat.add_0_r.
    rewrite (find_job_set_status _ _ _ _ _ (find_job_set_status _ _ _ _ _ Hjr)).
    reflexivity.
  - set (db' := set_status (set_status (reload_jobs db) id RUNNING None) id FAILED _).
    assert (Hj' : find_job id (jobs db') =
              Some (mkJob (job_id j) FAILED (Some ("Error processing image: " ++ msgs k)%string))).
    { unfold db'. rewrite (find_job_set_status _ _ _ _ _ (find_job_set_status _ _ _ _ _ Hjr)).
      reflexivity. }
    destruct (IH (S k) db' _ Hj' Hn) as [db'' [Hr [Hl Hf]]].
    exists db''. rewrite Hr, Hl. rewrite Nat.add_succ_r. cbn [job_id] in Hf.
    repeat split. exact Hf.
Qed.

End Facts.
End TasksFacts.

(** ** Claims about the task *)

Module TasksClaims.
Import Tasks TasksFacts TasksDemo.
Local Open Scope nat_scope.

(** C1: the ledger lookup depends only on the SHA-256 digest of the
    downloaded bytes (hashlib's digest is a function of its input), and
    when the digest is already in [processed_images] the run commits
    RUNNING then COMPLETED and returns: whatever [process_image] and
    [extract_data] would do, no card row and no second ledger row is
    written. *)
Theorem process_image_task_dedup (sha256_hex : list Byte.byte -> string)
    env db jobId image_key j :
  find_job jobId (jobs db) = Some j ->
  In (sha256_hex (download_image_from_s3 env image_key)) (processed_images db) ->
  (forall b b', sha256_hex b = sha256_hex b' ->
     is_image_processed sha256_hex b db = is_image_processed sha256_hex b' db) /\
  process_image_task sha256_hex env db jobId image_key =
    (set_status (set_status db jobId RUNNING None) jobId COMPLETED None, Returned) /\
  processed_images (fst (process_image_task sha256_hex env db jobId image_key))
    = processed_images db /\
  cards (fst (process_image_task sha256_hex env db jobId image_key)) = cards db /\
  find_job jobId (jobs (fst (process_image_task sha256_hex env db jobId image_key)))
    = Some (mkJob (job_id j) COMPLETED (error_message j)) /\
  (forall env', s3_get env' = s3_get env ->
     process_image_task sha256_hex env' db jobId image_key
     = process_image_task sha256_hex env db jobId image_key).
Proof.
  intros Hj Hin.
  assert (Hrun : forall env', s3_get env' = s3_get env ->
            process_image_task sha256_hex env' db jobId image_key =
            (set_status (set_status db jobId RUNNING None) jobId COMPLETED None, Returned)).
  { intros env' Hs. unfold process_image_task. rewrite Hj.
    assert (Hd : download_image_from_s3 env' image_key = download_image_from_s3 env image_key)
      by (unfold download_image_from_s3; rewrite Hs; reflexivity).
    rewrite Hd.
    assert (Hp : is_image_processed sha256_hex (download_image_from_s3 env image_key)
                   (set_status db jobId RUNNING None) = true)
      by (apply is_image_processed_In; exact Hin).
    rewrite Hp. reflexivity. }
  split.
  { intros b b' Hb. unfold is_image_processed. rewrite Hb. reflexivity. }
  rewrite (Hrun env eq_refl). cbn [fst].
  split; [reflexivity|]. split; [reflexivity|]. split; [reflexivity|]. split.
  - rewrite (find_job_set_status _ _ _ _ _ (find_job_set_status _ _ _ _ _ Hj)). reflexivity.
  - intros env' Hs. rewrite (Hrun env' Hs). reflexivity.
Qed.

Lemma process_image_task_dedup_witness :
  find_job 1 (jobs (demo_db PENDING [demo_hash [Byte.x89; Byte.x50; Byte.x4e; Byte.x47]]))
    = Some (mkJob 1 PENDING None) /\
  In (demo_hash (download_image_from_s3 ok_env demo_key))
     (processed_images (demo_db PENDING [demo_hash [Byte.x89; Byte.x50; Byte.x4e; Byte.x47]])) /\
  process_image_task demo_hash ok_env
      (demo_db PENDING [demo_hash [Byte.x89; Byte.x50; Byte.x4e; Byte.x47]]) 1 demo_key
    = (set_status (set_status (demo_db PENDING [demo_hash [Byte.x89; Byte.x50; Byte.x4e; Byte.x47]])
                              1 RUNNING None) 1 COMPLETED None, Returned).
Proof.
  assert (Hj : find_job 1 (jobs (demo_db PENDING [demo_hash [Byte.x89; Byte.x50; Byte.x4e; Byte.x47]]))
               = Some (mkJob 1 PENDING None)) by reflexivity.
  assert (Hin : In (demo_hash (download_image_from_s3 ok_env demo_key))
     (processed_images (demo_db PENDING [demo_hash [Byte.x89; Byte.x50; Byte.x4e; Byte.x47]])))
    by (simpl; left; reflexivity).
  split; [exact Hj|]. split; [exact Hin|].
  exact (proj1 (proj2 (process_image_task_dedup demo_hash ok_env _ 1 demo_key _ Hj Hin))).
Defined.

(** C2 (counterexample): a job that fails on its first attempt is FAILED,
    and Celery's retry sets it back to RUNNING; FAILED is committed once
    per attempt, four times in all. *)
Lemma status_not_monotonic :
  status_writes (fst (fst (celery_process_image_task demo_hash (fun _ => corrupt_env)
                             (demo_db PENDING []) 1 demo_key)))
  = [(1%Z, RUNNING); (1%Z, FAILED); (1%Z, RUNNING); (1%Z, FAILED);
     (1%Z, RUNNING); (1%Z, FAILED); (1%Z, RUNNING); (1%Z, FAILED)].
Proof. vm_compute. reflexivity. Qed.

(** C2 (amended): every attempt on an existing job first commits RUNNING,
    whatever the job's current status, terminal ones included, then
    exactly one of COMPLETED or FAILED; Celery re-runs the task after
    each FAILED, so one invocation commits [n] pairs RUNNING, FAILED with
    [n <= max_retries], then RUNNING and a terminal status. *)
Theorem celery_status_writes (sha256_hex : list Byte.byte -> string)
    envs db jobId image_key j :
  find_job jobId (jobs db) = Some j ->
  exists n t, n <= max_retries /\ (t = COMPLETED \/ t = FAILED) /\
    status_writes (fst (fst (celery_process_image_task sha256_hex envs db jobId image_key)))
      = (status_writes db ++ List.concat (repeat [(jobId, RUNNING); (jobId, FAILED)] n)
                         ++ [(jobId, RUNNING); (jobId, t)])%list.
Proof.
  intros Hj. destruct (retries_writes sha256_hex envs jobId image_key max_retries 0 db j Hj)
    as [n [t [Hn [Ht [Hw _]]]]].
  exists n, t. split; [exact Hn|]. split; [exact Ht|]. exact Hw.
Qed.

Lemma celery_status_writes_witness :
  find_job 1 (jobs (demo_db COMPLETED [])) = Some (mkJob 1 COMPLETED None) /\
  exists n t, n <= max_retries /\ (t = COMPLETED \/ t = FAILED) /\
    status_writes (fst (fst (celery_process_image_task demo_hash (fun _ => ok_env)
                               (demo_db COMPLETED []) 1 demo_key)))
      = (status_writes (demo_db COMPLETED [])
           ++ List.concat (repeat [(1%Z, RUNNING); (1%Z, FAILED)] n)
           ++ [(1%Z, RUNNING); (1%Z, t)])%list.
Proof.
  assert (Hj : find_job 1 (jobs (demo_db COMPLETED [])) = Some (mkJob 1 COMPLETED None))
    by reflexivity.
  split; [exact Hj|].
  exact (celery_status_writes demo_hash (fun _ => ok_env) _ 1 demo_key _ Hj).
Defined.

(** C3 (counterexample): a corrupt image (a deterministic failure) is
    retried like any other error, four attempts in all; an unreachable S3
    also leads to four attempts, not [max_retries = 3]. *)
Lemma retry_ignores_category :
  snd (celery_process_image_task demo_hash (fun _ => corrupt_env) (demo_db PENDING []) 1 demo_key) = 4 /\
  snd (celery_process_image_task demo_hash (fun _ => s3_down_env) (demo_db PENDING []) 1 demo_key) = 4 /\
  max_retries = 3.
Proof. vm_compute. repeat split. Qed.

(** C3 (code bug): the handler of tasks.py that turns an S3 failure into
    [ImageProcessingError("Error downloading image from S3: ...")] never
    runs, because [download_image_from_s3] swallows the error and returns
    [b""]. When S3 is unreachable on every attempt, the task goes on with
    the empty bytes: if the digest of [b""] is in the ledger the job is
    COMPLETED after one attempt; otherwise, when [process_image] raises on
    [b""], Celery makes four attempts and the job ends FAILED with an
    "Error processing image" message, never the download message. *)
Theorem s3_failure_not_reported (sha256_hex : list Byte.byte -> string)
    envs db jobId image_key j (msgs : nat -> string) :
  find_job jobId (jobs db) = Some j ->
  (forall k, s3_get (envs k) image_key = None) ->
  (In (sha256_hex []) (processed_images db) ->
   exists db',
     celery_process_image_task sha256_hex envs db jobId image_key = (db', Returned, 1%nat)
     /\ find_job jobId (jobs db') = Some (mkJob (job_id j) COMPLETED None))
  /\
  (~ In (sha256_hex []) (processed_images db) ->
   (forall k, process_image (envs k) [] = Err (msgs k)) ->
   exists db',
     celery_process_image_task sha256_hex envs db jobId image_key =
       (db', Raised (ImageProcessingError ("Error processing image: " ++ msgs 3)%string), 4%nat)
     /\ find_job jobId (jobs db') =
          Some (mkJob (job_id j) FAILED (Some ("Error processing image: " ++ msgs 3)%string))
     /\ forall x, ("Error processing image: " ++ msgs 3)%string
                  <> ("Error downloading image from S3: " ++ x)%string).
Proof.
  intros Hj Hs.
  pose proof (find_job_reload db jobId j Hj) as Hjr.
  assert (Hd : forall k, download_image_from_s3 (envs k) image_key = []).
  { intros k. unfold download_image_from_s3. rewrite Hs. reflexivity. }
  split.
  - intros Hin. unfold celery_process_image_task, max_retries.
    cbn [run_with_retries]. unfold process_image_task. rewrite Hjr, Hd.
    assert (Hp : is_image_processed sha256_hex []
                   (set_status (reload_jobs db) jobId RUNNING None) = true).
    { unfold is_image_processed. apply existsb_exists.
      exists (sha256_hex []). split; [exact Hin | apply String.eqb_refl]. }
    rewrite Hp. eexists. split; [reflexivity|].
    rewrite (find_job_set_status _ _ _ _ _ (find_job_set_status _ _ _ _ _ Hjr)).
    reflexivity.
  - intros Hnin Hp.
    assert (Hp' : forall k, process_image (envs k) (download_image_from_s3 (envs k) image_key)
                            = Err (msgs k)).
    { intros k. rewrite Hd. apply Hp. }
    assert (Hn : forall k, ~ In (sha256_hex (download_image_from_s3 (envs k) image_key))
                              (processed_images db)).
    { intros k. rewrite Hd. exact Hnin. }
    destruct (retries_all_fail sha256_hex envs jobId image_key msgs Hp' max_retries 0 db j Hj Hn)
      as [db' [H1 [_ H3]]].
    exists db'. split; [exact H1|]. split; [exact H3|].
    intros x H. cbn in H. discriminate H.
Qed.

Lemma s3_failure_not_reported_witness :
  exists db',
    celery_process_image_task demo_hash (fun _ => s3_down_env) (demo_db PENDING []) 1 demo_key =
      (db', Raised (ImageProcessingError ("Error processing image: cannot identify image file")%string), 4%nat)
    /\ find_job 1 (jobs db') =
         Some (mkJob 1 FAILED (Some ("Error processing image: cannot identify image file")%string))
    /\ forall x, ("Error processing image: cannot identify image file")%string
                 <> ("Error downloading image from S3: " ++ x)%string.
Proof.
  apply (proj2 (s3_failure_not_reported demo_hash (fun _ => s3_down_env) (demo_db PENDING []) 1 demo_key
           (mkJob 1 PENDING None) (fun _ => "cannot identify image file"%string)
           eq_refl (fun _ => eq_refl))).
  - simpl. intros [].
  - intros k. reflexivity.
Defined.

End TasksClaims.

(** ** Facts about the segmenter *)

Module SegmenterFacts.
Import Segmenter.
Local Open Scope Z_scope.








Lemma drop_spaces_all l :
  forallb is_py_space l = true -> drop_spaces l = [].
Proof.
  induction l as [|c l IH]; simpl; [reflexivity|].
  intros H. apply andb_prop in H as [Hc Hl]. rewrite Hc. auto.
Qed.

Lemma no_double_suffix a m : NoDoubleUnderscore (a ++ m) -> NoDoubleUnderscore m.
Proof.
  intros H p q E. apply (H (a ++ p) q). rewrite E, <- app_assoc. reflexivity.
Qed.

Lemma no_double_prefix m b : NoDoubleUnderscore (m ++ b) -> NoDoubleUnderscore m.
Proof.
  intros H p q E. apply (H p (q ++ b)). rewrite E, <- app_assoc. reflexivity.
Qed.

Lemma no_double_rev l : NoDoubleUnderscore l -> NoDoubleUnderscore (rev l).
Proof.
  intros H p q E. apply (H (rev q) (rev p)).
  rewrite <- (rev_involutive l), E, rev_app_distr. simpl.
  rewrite <- !app_assoc. reflexivity.
Qed.

Lemma no_double_cons c l :
  NoDoubleUnderscore l ->
  (c = underscore -> forall l', l <> underscore :: l') ->
  NoDoubleUnderscore (c :: l).
Proof.
  intros H Hc [|x p] q E; simpl in E; injection E as E1 E2.
  - exact (Hc E1 q E2).
  - exact (H p q E2).
Qed.

Lemma collapse_no_double s : forall prev,
  NoDoubleUnderscore (collapse_underscores prev s) /\
  (prev = true -> forall l', collapse_underscores prev s <> underscore :: l').
Proof.
  induction s as [|c s IH]; intros prev; simpl.
  - split; [intros [|x p] q E; discriminate|intros _ l' E; discriminate].
  - destruct (N.eqb c underscore) eqn:Ec.
    + apply N.eqb_eq in Ec. destruct prev.
      * destruct (IH true) as [H1 H2]. split; [exact H1|exact H2].
      * destruct (IH true) as [H1 H2]. split; [|discriminate].
        apply no_double_cons; [exact H1|]. intros _. apply H2. reflexivity.
    + apply N.eqb_neq in Ec. destruct (IH false) as [H1 _]. split.
      * apply no_double_cons; [exact H1|]. intros E; contradiction.
      * intros _ l' E. injection E as E _. contradiction.
Qed.

Lemma lstrip_suffix s : exists a, s = a ++ lstrip_chars s.
Proof.
  induction s as [|c s IH]; simpl; [exists []; reflexivity|].
  destruct (strip_char c).
  - destruct IH as [a Ha]. exists (c :: a). simpl. rewrite <- Ha. reflexivity.
  - exists []. reflexivity.
Qed.

Lemma strip_chars_no_double s :
  NoDoubleUnderscore s -> NoDoubleUnderscore (strip_chars s).
Proof.
  intros H. unfold strip_chars.
  apply no_double_rev.
  destruct (lstrip_suffix (rev (lstrip_chars s))) as [a Ha].
  apply (no_double_suffix a). rewrite <- Ha.
  apply no_double_rev.
  destruct (lstrip_suffix s) as [b Hb].
  apply (no_double_suffix b). rewrite <- Hb. exact H.
Qed.

Lemma strip_chars_incl s c : In c (strip_chars s) -> In c s.
Proof.
  unfold strip_chars. intros H. apply in_rev in H.
  destruct (lstrip_suffix (rev (lstrip_chars s))) as [a Ha].
  assert (H1 : In c (rev (lstrip_chars s))) by (rewrite Ha; apply in_or_app; right; exact H).
  apply in_rev in H1.
  destruct (lstrip_suffix s) as [b Hb]. rewrite Hb. apply in_or_app. right. exact H1.
Qed.

Lemma collapse_incl s : forall prev c, In c (collapse_underscores prev s) -> In c s.
Proof.
  induction s as [|x s IH]; intros prev c; simpl; [intros []|].
  destruct (N.eqb x underscore); [destruct prev|]; simpl;
    intros H; try destruct H as [H|H]; eauto.
Qed.

Lemma replace_disallowed_allowed s c : In c (replace_disallowed s) -> is_allowed c = true.
Proof.
  unfold replace_disallowed. intros H. apply in_map_iff in H as [x [<- _]].
  destruct (is_allowed x) eqn:E; [exact E|reflexivity].
Qed.

End SegmenterFacts.

(** ** Claims about the segmenter and the confidence filter *)

Module SegmenterClaims.
Import Segmenter Inference SegmenterFacts SegmenterDemo.
Local Open Scope Z_scope.

(** C4 (the code at the failing input): two detections, both inside the
    6x6 image, give four entries, each dict being appended twice in the
    loop of [segment_cards]. *)
Lemma segment_cards_two_detections :
  bbox_valid demo_image 0 0 2 2 = true /\ bbox_valid demo_image 3 3 5 5 = true /\
  match segment_cards (demo_seg_env [det_a; det_b]) demo_image with
  | Ok (out, _) => map si_bbox out = [rd_bbox det_a; rd_bbox det_a; rd_bbox det_b; rd_bbox det_b]
  | Err _ => False
  end.
Proof. vm_compute. split; [reflexivity|]. split; reflexivity. Qed.

(** C5: when every entry [segment_cards] returns carries a numeric
    confidence, [run_inference] returns exactly the entries with
    [confidence >= confidence_threshold], in their order. *)
Theorem run_inference_confidence_filter env image t D logs :
  segment_cards env image = Ok (D, logs) ->
  (forall d, In d D -> si_confidence d <> None) ->
  run_inference env image t =
    Ok (filter (fun d => match si_confidence d with
                         | Some c => Qle_bool t c
                         | None => false
                         end) D).
Proof.
  intros Hs Hc. unfold run_inference. rewrite Hs.
  destruct D as [|d0 D']; [reflexivity|].
  unfold confidence_filter.
  destruct (existsb _ (d0 :: D')) eqn:E; [|reflexivity].
  apply existsb_exists in E as [d [Hd Hn]].
  destruct (si_confidence d) eqn:Ec; [discriminate|].
  exfalso. exact (Hc d Hd Ec).
Qed.

Lemma run_inference_confidence_filter_witness :
  run_inference (demo_seg_env [det_a; det_b]) demo_image (85 # 100) =
    Ok (filter (fun d => match si_confidence d with
                         | Some c => Qle_bool (85 # 100) c
                         | None => false
                         end)
               (fst (segment_loop (demo_seg_env [det_a; det_b]) demo_image 0 [det_a; det_b]))).
Proof.
  apply (run_inference_confidence_filter _ _ _ _
           (snd (segment_loop (demo_seg_env [det_a; det_b]) demo_image 0 [det_a; det_b]))).
  - reflexivity.
  - intros d Hd. vm_compute in Hd.
    destruct Hd as [<-|[<-|[<-|[<-|[]]]]]; discriminate.
Defined.







(** C9: on a non-empty segment, OCR text made only of whitespace (or no
    text) gives ["Unknown Card"]; a missing Tesseract gives
    ["Error: Tesseract Not Found"] and any other OCR failure ["Error
    Identifying Card Name"], both different from ["Unknown Card"]. *)
Theorem identify_card_name_sentinels env image :
  size image <> 0 ->
  (forall s, ocr env image = OcrText s -> forallb is_py_space s = true ->
     identify_card_name env image = codepoints "Unknown Card") /\
  (ocr env image = TesseractNotFound ->
     identify_card_name env image = codepoints "Error: Tesseract Not Found" /\
     identify_card_name env image <> codepoints "Unknown Card") /\
  (forall m, ocr env image = OcrFailure m ->
     identify_card_name env image = codepoints "Error Identifying Card Name" /\
     identify_card_name env image <> codepoints "Unknown Card").
Proof.
  intros Hn. unfold identify_card_name.
  destruct (Z.eqb (size image) 0) eqn:E; [apply Z.eqb_eq in E; contradiction|].
  split; [|split].
  - intros s Ho Hs. rewrite Ho. unfold py_strip. rewrite (drop_spaces_all _ Hs). reflexivity.
  - intros Ho. rewrite Ho. split; [reflexivity|vm_compute; discriminate].
  - intros m Ho. rewrite Ho. split; [reflexivity|vm_compute; discriminate].
Qed.

Lemma identify_card_name_sentinels_witness :
  identify_card_name (mkSegEnv (fun _ => Ok NoResults) (fun _ => OcrText [32; 160; 12288]%N))
      [[(0, 0, 0)]]
    = codepoints "Unknown Card" /\
  identify_card_name (mkSegEnv (fun _ => Ok NoResults) (fun _ => TesseractNotFound)) [[(0, 0, 0)]]
    <> codepoints "Unknown Card".
Proof.
  split.
  - apply (proj1 (identify_card_name_sentinels
                    (mkSegEnv (fun _ => Ok NoResults) (fun _ => OcrText [32; 160; 12288]%N))
                    [[(0, 0, 0)]] ltac:(discriminate)) [32; 160; 12288]%N); reflexivity.
  - apply (proj1 (proj2 (identify_card_name_sentinels
                    (mkSegEnv (fun _ => Ok NoResults) (fun _ => TesseractNotFound)) [[(0, 0, 0)]]
                    ltac:(discriminate))) eq_refl).
Defined.

(** C10: [sanitize_filename] returns a non-empty name of at most 200
    characters, each an ASCII letter or digit, [_], [.] or [-], with no
    two consecutive underscores; when the replacing, collapsing and
    stripping leave nothing, the name is ["invalid_name"]. *)
Theorem sanitize_filename_safe (filename_str : list N) :
  sanitize_filename filename_str <> [] /\
  (List.length (sanitize_filename filename_str) <= 200)%nat /\
  forallb is_allowed (sanitize_filename filename_str) = true /\
  NoDoubleUnderscore (sanitize_filename filename_str) /\
  (strip_chars (collapse_underscores false (replace_disallowed filename_str)) = [] ->
   sanitize_filename filename_str = codepoints "invalid_name").
Proof.
  unfold sanitize_filename.
  set (t := strip_chars (collapse_underscores false (replace_disallowed filename_str))).
  assert (Hall : forallb is_allowed t = true).
  { apply forallb_forall. intros c Hc.
    apply strip_chars_incl, collapse_incl, replace_disallowed_allowed in Hc. exact Hc. }
  assert (Hnd : NoDoubleUnderscore t).
  { apply strip_chars_no_double. apply (proj1 (collapse_no_double _ false)). }
  assert (Hdef : NoDoubleUnderscore (codepoints "invalid_name")).
  { intros p q E. vm_compute in E.
    do 12 (destruct p as [|? p]; [discriminate|injection E as _ E]).
    destruct p; discriminate. }
  destruct t as [|c t'] eqn:Et.
  - split; [vm_compute; discriminate|]. split; [vm_compute; lia|].
    split; [reflexivity|]. split; [|reflexivity].
    exact Hdef.
  - split; [unfold max_length; simpl; discriminate|].
    split; [apply firstn_le_length|].
    split.
    + apply forallb_forall. intros x Hx.
      assert (Hx' : In x (c :: t')).
      { rewrite <- (firstn_skipn max_length (c :: t')). apply in_or_app. left. exact Hx. }
      exact (proj1 (forallb_forall _ _) Hall x Hx').
    + split; [|discriminate].
      rewrite <- (firstn_skipn max_length (c :: t')) in Hnd.
      exact (no_double_prefix _ _ Hnd).
Qed.

Lemma sanitize_filename_safe_witness :
  sanitize_filename (codepoints "__.-") = codepoints "invalid_name" /\
  (List.length (sanitize_filename (codepoints "Elsa - Snow Queen!")) <= 200)%nat.
Proof.
  split.
  - apply (proj2 (proj2 (proj2 (proj2 (sanitize_filename_safe (codepoints "__.-")))))).
    vm_compute. reflexivity.
  - exact (proj1 (proj2 (sanitize_filename_safe (codepoints "Elsa - Snow Queen!")))).
Defined.

End SegmenterClaims.

(** ** Claims about the card data fetcher *)

Module FetcherClaims.
Import Fetcher FetcherDemo.
Local Open Scope Z_scope.

Lemma api_validated_dicts l :
  forallb is_dict (filter (fun c => is_dict c && validate_card_data_entry c) l) = true.
Proof.
  induction l as [|c l IH]; simpl; [reflexivity|].
  destruct (is_dict c) eqn:Ed; simpl; [|exact IH].
  destruct (validate_card_data_entry c); simpl; [rewrite Ed|]; exact IH.
Qed.

Lemma api_validated_revalidate l :
  filter validate_card_data_entry (filter (fun c => is_dict c && validate_card_data_entry c) l)
  = filter (fun c => is_dict c && validate_card_data_entry c) l.
Proof.
  induction l as [|c l IH]; simpl; [reflexivity|].
  destruct (is_dict c && validate_card_data_entry c) eqn:E; simpl; [|exact IH].
  apply andb_prop in E as [_ E]. rewrite E, IH. reflexivity.
Qed.

(** C7 (counterexample): the cache, written at time 0, is served at time
    99; a second call at time 101, two seconds later, finds it expired
    and goes to the network. *)
Lemma second_call_within_duration_fetches :
  101 - 99 < cache_duration demo_fetch_env /\
  snd (fetch_card_data demo_fetch_env cache_at_0 99 []) = 0%nat /\
  snd (fetch_card_data demo_fetch_env
         (snd (fst (fetch_card_data demo_fetch_env cache_at_0 99 []))) 101 []) = 1%nat.
Proof. vm_compute. split; [reflexivity|]. split; reflexivity. Qed.

(** C7 (amended): after [fetch_card_data([])] returns a list [L], the
    cache file exists; when that call went to the network, the file is
    stamped with its time; and a second call at a time less than
    [cache_duration] after the file's modification time, nothing having
    changed, returns [L] and makes no network request. *)
Theorem fetch_card_data_twice env fs t1 L fs1 n1 :
  fetch_card_data env fs t1 [] = (Ok L, fs1, n1) ->
  exists f, fs1 = Some f /\
    (n1 = 1%nat -> mtime f = t1) /\
    forall t2, t2 - mtime f < cache_duration env ->
      fetch_card_data env fs1 t2 [] = (Ok L, fs1, 0%nat).
Proof.
  unfold fetch_card_data.
  destruct (try_cache env fs t1) as [v|] eqn:Ec.
  - intros [= <- <- <-].
    destruct fs as [f|]; [|discriminate].
    exists f. split; [reflexivity|]. split; [discriminate|].
    intros t2 Ht2. unfold try_cache in Ec |- *.
    destruct (is_cache_valid env (Some f) t1) eqn:Ev; [|discriminate].
    unfold is_cache_valid in Ev |- *.
    assert (H' : (t2 - mtime f <? cache_duration env) = true) by (apply Z.ltb_lt; exact Ht2).
    rewrite H', Ec. reflexivity.
  - unfold fetch_from_api, save_to_cache.
    destruct (api_response env) as [|[[| | | | raw |]|]]; try discriminate.
    destruct (cache_write env) as [| |w]; [|discriminate|discriminate].
    intros [= <- <- <-].
    eexists. split; [reflexivity|]. split; [reflexivity|].
    intros t2 Ht2. unfold try_cache, is_cache_valid, load_from_cache. cbn [mtime content].
    assert (H' : (t2 - t1 <? cache_duration env) = true) by (apply Z.ltb_lt; exact Ht2).
    rewrite H', api_validated_dicts, api_validated_revalidate. reflexivity.
Qed.

Lemma fetch_card_data_twice_witness :
  exists f, snd (fst (fetch_card_data demo_fetch_env None 1000 [])) = Some f /\
    (snd (fetch_card_data demo_fetch_env None 1000 []) = 1%nat -> mtime f = 1000) /\
    forall t2, t2 - mtime f < cache_duration demo_fetch_env ->
      fetch_card_data demo_fetch_env (snd (fst (fetch_card_data demo_fetch_env None 1000 []))) t2 []
      = (Ok [card_elsa], snd (fst (fetch_card_data demo_fetch_env None 1000 [])), 0%nat).
Proof.
  apply (fetch_card_data_twice demo_fetch_env None 1000 [card_elsa] _ _).
  reflexivity.
Defined.

(** C8: a cache file that cannot be read or decoded is not an error: the
    call does exactly what the API branch does; a failure to write the
    refreshed data raises [CacheError] to the caller, the cache file left
    as it was when [makedirs] or [open] failed, and truncated and
    partly written when [json.dump] failed. *)
Theorem cache_read_write_failures env :
  (forall f now card_names, content f = Unreadable ->
     fetch_card_data env (Some f) now card_names =
       (let '(r, fs') := fetch_from_api env (Some f) now card_names in (r, fs', 1%nat))) /\
  (forall fs now card_names raw,
     api_response env = Body (Some (JArr raw)) ->
     cache_write env <> WriteOk ->
     try_cache env fs now = None ->
     exists fs', fetch_card_data env fs now card_names = (Err CacheError, fs', 1%nat) /\
       (cache_write env = OpenFails -> fs' = fs) /\
       (forall w, cache_write env = DumpFails w -> fs' = Some (mkCacheFile now w))).
Proof.
  split.
  - intros f now card_names Hc.
    unfold fetch_card_data, try_cache, load_from_cache. rewrite Hc.
    destruct (is_cache_valid env (Some f) now); reflexivity.
  - intros fs now card_names raw Ha Hw Ht.
    unfold fetch_card_data. rewrite Ht.
    unfold fetch_from_api, save_to_cache. rewrite Ha.
    destruct (cache_write env) as [| |w]; [contradiction| |].
    + eexists. split; [reflexivity|]. split; [reflexivity|discriminate].
    + eexists. split; [reflexivity|]. split; [discriminate|].
      intros w' [= <-]. reflexivity.
Qed.

Lemma cache_read_write_failures_witness :
  fetch_card_data demo_fetch_env (Some broken_cache) 60 [] =
    (let '(r, fs') := fetch_from_api demo_fetch_env (Some broken_cache) 60 [] in (r, fs', 1%nat)) /\
  (exists fs', fetch_card_data readonly_fetch_env None 60 [] = (Err CacheError, fs', 1%nat) /\
     (cache_write readonly_fetch_env = OpenFails -> fs' = None) /\
     (forall w, cache_write readonly_fetch_env = DumpFails w -> fs' = Some (mkCacheFile 60 w))) /\
  (exists fs', fetch_card_data diskfull_fetch_env cache_at_0 200 [] = (Err CacheError, fs', 1%nat) /\
     (cache_write diskfull_fetch_env = OpenFails -> fs' = cache_at_0) /\
     (forall w, cache_write diskfull_fetch_env = DumpFails w -> fs' = Some (mkCacheFile 200 w))).
Proof.
  split; [|split].
  - exact (proj1 (cache_read_write_failures demo_fetch_env) broken_cache 60 [] eq_refl).
  - exact (proj2 (cache_read_write_failures readonly_fetch_env) None 60 []
                 [card_elsa; card_no_type] eq_refl ltac:(discriminate) eq_refl).
  - exact (proj2 (cache_read_write_failures diskfull_fetch_env) cache_at_0 200 []
                 [card_elsa; card_no_type] eq_refl ltac:(discriminate) eq_refl).
Defined.

End FetcherClaims.

(** ** Further properties of the task *)

Module TasksExtra.
Import Tasks TasksFacts.
Local Open Scope nat_scope.

Section Extra.
Variable sha256_hex : list Byte.byte -> string.

(** The three ways a run on an existing job ends. *)
Lemma task_cases env db id key j :
  find_job id (jobs db) = Some j ->
  let db1 := set_status db id RUNNING None in
  let b := download_image_from_s3 env key in
  (In (sha256_hex b) (processed_images db) /\
   process_image_task sha256_hex env db id key = (set_status db1 id COMPLETED None, Returned)) \/
  (~ In (sha256_hex b) (processed_images db) /\
   exists e, process_image_task sha256_hex env db id key = fail_job db1 id e) \/
  (~ In (sha256_hex b) (processed_images db) /\
   exists pd cds, process_image env b = Ok pd /\ extract_data env pd = Ok cds /\
   process_image_task sha256_hex env db id key =
     (set_status (mkDB (jobs db1) (processed_images db1 ++ [sha256_hex b])
                       (cards db1 ++ map (fun c => (id, c)) cds) (status_writes db1))
                 id COMPLETED None, Returned)).
Proof.
  intros Hj db1 b. unfold process_image_task. rewrite Hj. fold db1 b.
  destruct (is_image_processed sha256_hex b db1) eqn:Ei.
  - left. split; [|reflexivity]. apply is_image_processed_In in Ei. exact Ei.
  - assert (Hn : ~ In (sha256_hex b) (processed_images db)).
    { intros H. apply (is_image_processed_In sha256_hex db1 b) in H. congruence. }
    right. destruct (process_image env b) as [pd|e] eqn:Ep.
    + destruct (extract_data env pd) as [cds|e] eqn:Ex.
      * right. split; [exact Hn|]. exists pd, cds.
        split; [reflexivity|]. split; [exact Ex|reflexivity].
      * left. split; [exact Hn|]. eexists. reflexivity.
    + left. split; [exact Hn|]. eexists. reflexivity.
Qed.

(** A run that returns leaves the digest of its downloaded bytes in the
    ledger, so a later run on the same bytes takes the dedup branch. *)
Theorem task_returned_records_hash env db id key j :
  find_job id (jobs db) = Some j ->
  snd (process_image_task sha256_hex env db id key) = Returned ->
  In (sha256_hex (download_image_from_s3 env key))
     (processed_images (fst (process_image_task sha256_hex env db id key))).
Proof.
  intros Hj. destruct (task_cases env db id key j Hj) as [[Hin E]|[[_ [e E]]|[_ [pd [cds [_ [_ E]]]]]]];
    rewrite E; cbn [fst snd].
  - intros _. exact Hin.
  - discriminate.
  - intros _. rewrite set_status_ledger. cbn [processed_images].
    apply in_or_app. right. left. reflexivity.
Qed.

(** The ledger keeps at most one row per digest: a run never adds a
    digest that is already there. *)
Theorem task_ledger_nodup env db id key :
  NoDup (processed_images db) ->
  NoDup (processed_images (fst (process_image_task sha256_hex env db id key))).
Proof.
  intros Hnd. destruct (find_job id (jobs db)) as [j|] eqn:Hj.
  2:{ unfold process_image_task. rewrite Hj. exact Hnd. }
  destruct (task_cases env db id key j Hj) as [[_ E]|[[_ [e E]]|[Hn [pd [cds [_ [_ E]]]]]]];
    rewrite E; cbn [fst].
  - exact Hnd.
  - exact Hnd.
  - rewrite set_status_ledger. cbn [processed_images]. rewrite set_status_ledger.
    apply NoDup_app; [exact Hnd|constructor; [intros []|constructor]|].
    intros x Hx [<-|[]]. exact (Hn Hx).
Qed.

Lemma retries_ledger_nodup envs id key :
  forall r k db, NoDup (processed_images db) ->
  NoDup (processed_images (fst (fst (run_with_retries sha256_hex r k envs db id key)))).
Proof.
  induction r as [|r IH]; intros k db Hnd; cbn [run_with_retries];
    pose proof (task_ledger_nodup (envs k) (reload_jobs db) id key Hnd) as H;
    destruct (process_image_task sha256_hex (envs k) (reload_jobs db) id key) as [db' [|e]];
    cbn [fst] in *; auto.
Qed.

(** The same holds for a whole Celery invocation, retries included. *)
Theorem celery_ledger_nodup envs db id key :
  NoDup (processed_images db) ->
  NoDup (processed_images (fst (fst (celery_process_image_task sha256_hex envs db id key)))).
Proof. apply retries_ledger_nodup. Qed.

(** A run that raises changes neither the ledger nor the card rows, and
    leaves the job FAILED with the exception's text as [error_message]. *)
Theorem task_raised_no_side_effects env db id key j e :
  find_job id (jobs db) = Some j ->
  snd (process_image_task sha256_hex env db id key) = Raised e ->
  processed_images (fst (process_image_task sha256_hex env db id key)) = processed_images db /\
  cards (fst (process_image_task sha256_hex env db id key)) = cards db /\
  find_job id (jobs (fst (process_image_task sha256_hex env db id key))) =
    Some (mkJob (job_id j) FAILED (Some (error_str e))).
Proof.
  intros Hj. destruct (task_cases env db id key j Hj) as [[_ E]|[[_ [e' E]]|[_ [pd [cds [_ [_ E]]]]]]];
    rewrite E; cbn [fst snd fail_job]; try discriminate.
  intros [= <-]. split; [reflexivity|]. split; [reflexivity|].
  rewrite (find_job_set_status _ _ _ _ _ (find_job_set_status _ _ _ _ _ Hj)). reflexivity.
Qed.

(** A full successful run on new bytes: one card row per extracted detail
    for this job, in order, one ledger row for the digest, job COMPLETED. *)
Theorem task_full_success env db id key j pd cds :
  find_job id (jobs db) = Some j ->
  ~ In (sha256_hex (download_image_from_s3 env key)) (processed_images db) ->
  process_image env (download_image_from_s3 env key) = Ok pd ->
  extract_data env pd = Ok cds ->
  snd (process_image_task sha256_hex env db id key) = Returned /\
  cards (fst (process_image_task sha256_hex env db id key)) =
    (cards db ++ map (fun c => (id, c)) cds)%list /\
  processed_images (fst (process_image_task sha256_hex env db id key)) =
    (processed_images db ++ [sha256_hex (download_image_from_s3 env key)])%list /\
  find_job id (jobs (fst (process_image_task sha256_hex env db id key))) =
    Some (mkJob (job_id j) COMPLETED (error_message j)).
Proof.
  intros Hj Hn Hp Hx.
  destruct (task_cases env db id key j Hj) as [[Hin _]|[[_ [e E]]|[_ [pd' [cds' [Hp' [Hx' E]]]]]]].
  - contradiction.
  - exfalso. unfold process_image_task in E. rewrite Hj in E.
    destruct (is_image_processed _ _ _) eqn:Ei.
    + apply is_image_processed_In in Ei. contradiction.
    + rewrite Hp, Hx in E. discriminate.
  - rewrite Hp in Hp'. injection Hp' as <-. rewrite Hx in Hx'. injection Hx' as <-.
    rewrite E. cbn [fst snd]. split; [reflexivity|]. split; [reflexivity|]. split; [reflexivity|].
    rewrite (find_job_set_status _ _ _ _ (mkJob (job_id j) RUNNING (error_message j))); [reflexivity|].
    cbn [jobs]. rewrite (find_job_set_status _ _ _ _ _ Hj). reflexivity.
Qed.

Lemma retries_attempts envs id key :
  forall r k db, (k < snd (run_with_retries sha256_hex r k envs db id key) <= S (k + r)) /\
  (forall e, snd (fst (run_with_retries sha256_hex r k envs db id key)) = Raised e ->
     snd (run_with_retries sha256_hex r k envs db id key) = S (k + r)).
Proof.
  induction r as [|r IH]; intros k db; cbn [run_with_retries];
    destruct (process_image_task sha256_hex (envs k) (reload_jobs db) id key) as [db' [|e]];
    cbn [fst snd]; try (split; [lia|]; intros; first [discriminate | lia]).
  destruct (IH (S k) db') as [H1 H2]. split; [lia|].
  intros e' He. rewrite (H2 e' He). lia.
Qed.

(** A Celery invocation makes between 1 and [max_retries + 1 = 4]
    attempts, and exactly 4 whenever it ends by raising. *)
Theorem celery_attempts_bounds envs db id key :
  1 <= snd (celery_process_image_task sha256_hex envs db id key) <= 4 /\
  (forall e, snd (fst (celery_process_image_task sha256_hex envs db id key)) = Raised e ->
     snd (celery_process_image_task sha256_hex envs db id key) = 4).
Proof.
  unfold celery_process_image_task.
  destruct (retries_attempts envs id key max_retries 0 db) as [H1 H2].
  split; [unfold max_retries in *; lia|].
  intros e He. rewrite (H2 e He). reflexivity.
Qed.

End Extra.

Import TasksDemo.

Lemma task_returned_records_hash_witness :
  In (demo_hash (download_image_from_s3 ok_env demo_key))
     (processed_images (fst (process_image_task demo_hash ok_env (demo_db PENDING []) 1%Z demo_key))).
Proof.
  apply (task_returned_records_hash demo_hash ok_env (demo_db PENDING []) 1%Z demo_key
           (mkJob 1 PENDING None)); reflexivity.
Defined.

Lemma task_ledger_nodup_witness :
  NoDup (processed_images (fst (process_image_task demo_hash ok_env (demo_db PENDING []) 1%Z demo_key))).
Proof.
  apply (task_ledger_nodup demo_hash ok_env (demo_db PENDING []) 1%Z demo_key). constructor.
Defined.

Lemma celery_ledger_nodup_witness :
  NoDup (processed_images
           (fst (fst (celery_process_image_task demo_hash (fun _ => ok_env) (demo_db PENDING []) 1%Z demo_key)))).
Proof.
  apply (celery_ledger_nodup demo_hash (fun _ => ok_env) (demo_db PENDING []) 1%Z demo_key). constructor.
Defined.

Lemma task_raised_no_side_effects_witness :
  processed_images (fst (process_image_task demo_hash corrupt_env (demo_db PENDING []) 1%Z demo_key)) = [] /\
  cards (fst (process_image_task demo_hash corrupt_env (demo_db PENDING []) 1%Z demo_key)) = [] /\
  find_job 1%Z (jobs (fst (process_image_task demo_hash corrupt_env (demo_db PENDING []) 1%Z demo_key))) =
    Some (mkJob 1 FAILED (Some (error_str (ImageProcessingError
                                  "Error processing image: cannot identify image file")))).
Proof.
  apply (task_raised_no_side_effects demo_hash corrupt_env (demo_db PENDING []) 1%Z demo_key
           (mkJob 1 PENDING None)
           (ImageProcessingError "Error processing image: cannot identify image file"));
    reflexivity.
Defined.

Lemma task_full_success_witness :
  snd (process_image_task demo_hash ok_env (demo_db PENDING []) 1%Z demo_key) = Returned /\
  cards (fst (process_image_task demo_hash ok_env (demo_db PENDING []) 1%Z demo_key)) =
    [(1%Z, "Elsa - Snow Queen"%string)] /\
  processed_images (fst (process_image_task demo_hash ok_env (demo_db PENDING []) 1%Z demo_key)) =
    [demo_hash (download_image_from_s3 ok_env demo_key)] /\
  find_job 1%Z (jobs (fst (process_image_task demo_hash ok_env (demo_db PENDING []) 1%Z demo_key))) =
    Some (mkJob 1 COMPLETED None).
Proof.
  apply (task_full_success demo_hash ok_env (demo_db PENDING []) 1%Z demo_key
           (mkJob 1 PENDING None) ["Elsa - Snow Queen"%string] ["Elsa - Snow Queen"%string]);
    [reflexivity|intros []|reflexivity|reflexivity].
Defined.

End TasksExtra.

(** ** Further properties of the segmenter and the confidence filter *)

Module SegmenterExtra.
Import Segmenter Inference SegmenterFacts.
Local Open Scope Z_scope.

Lemma py_slice_incl {A} lo hi (l : list A) x : In x (py_slice lo hi l) -> In x l.
Proof.
  unfold py_slice. intros H.
  assert (H1 : In x (skipn (Z.to_nat lo) l)).
  { rewrite <- (firstn_skipn (Z.to_nat (hi - lo)) (skipn (Z.to_nat lo) l)).
    apply in_or_app. left. exact H. }
  rewrite <- (firstn_skipn (Z.to_nat lo) l). apply in_or_app. right. exact H1.
Qed.

Lemma py_slice_length {A} lo hi (l : list A) :
  0 <= lo -> lo < hi -> hi <= Z.of_nat (List.length l) ->
  List.length (py_slice lo hi l) = Z.to_nat (hi - lo).
Proof.
  intros H1 H2 H3. unfold py_slice. rewrite length_firstn, length_skipn. lia.
Qed.

Lemma crop_shape image x1 y1 x2 y2 :
  rectangular image -> bbox_valid image x1 y1 x2 y2 = true ->
  List.length (crop image x1 y1 x2 y2) = Z.to_nat (y2 - y1) /\
  (forall row, In row (crop image x1 y1 x2 y2) -> List.length row = Z.to_nat (x2 - x1)).
Proof.
  intros Hr Hv. unfold bbox_valid in Hv.
  repeat rewrite andb_true_iff in Hv. rewrite !Z.leb_le, !Z.ltb_lt in Hv.
  destruct Hv as [[[[[H1 H2] H3] H4] H5] H6].
  unfold crop. split.
  - rewrite length_map. apply py_slice_length; unfold shape0 in H6; lia.
  - intros row Hrow. apply in_map_iff in Hrow as [r [<- Hr']].
    apply py_slice_incl in Hr'. apply Hr in Hr'.
    apply py_slice_length; lia.
Qed.

Lemma size_pos (img : Image) r rs :
  img = r :: rs -> (0 < List.length r)%nat -> 0 < size img.
Proof.
  intros -> H. unfold size. cbn [fold_right].
  assert (0 <= fold_right (fun r acc => 3 * Z.of_nat (List.length r) + acc) 0 rs).
  { clear H. induction rs as [|r' rs IH]; cbn [fold_right]; lia. }
  lia.
Qed.

(** On a numpy image, every entry [segment_cards] returns holds the crop
    of its truncated box: [y2 - y1] rows of [x2 - x1] pixels, never empty,
    so [identify_card_name] never takes its empty-segment branch. *)
Theorem segment_cards_crop_shape env image out logs e :
  rectangular image ->
  segment_cards env image = Ok (out, logs) -> In e out ->
  exists a b c d, si_bbox e = (a, b, c, d) /\
    List.length (si_image e) = Z.to_nat (py_int d - py_int b) /\
    (forall row, In row (si_image e) -> List.length row = Z.to_nat (py_int c - py_int a)) /\
    0 < size (si_image e).
Proof.
  intros Hr Hs. unfold segment_cards in Hs.
  destruct (predict env image) as [p|err]; [|discriminate].
  destruct p as [|ds].
  { inversion Hs; subst. intros []. }
  inversion Hs as [Hs']. clear Hs.
  assert (Hs : out = fst (segment_loop env image 0 ds)) by (rewrite Hs'; reflexivity).
  clear Hs'.
  assert (Hgen : forall i, In e (fst (segment_loop env image i ds)) ->
    exists a b c d, si_bbox e = (a, b, c, d) /\
      bbox_valid image (py_int a) (py_int b) (py_int c) (py_int d) = true /\
      si_image e = crop image (py_int a) (py_int b) (py_int c) (py_int d)).
  { clear Hs. induction ds as [|dt ds IH]; intros i; simpl; [intros []|].
    destruct dt as [m [[[a b] c] d] cf].
    unfold segment_one. cbn [rd_bbox rd_mask rd_conf].
    destruct (bbox_valid image (py_int a) (py_int b) (py_int c) (py_int d)) eqn:V;
      specialize (IH (S i)); destruct (segment_loop env image (S i) ds) as [o l]; simpl in *.
    - intros [<-|[<-|H]]; [exists a, b, c, d; auto|exists a, b, c, d; auto|auto].
    - exact IH. }
  intros Hin. rewrite Hs in Hin.
  destruct (Hgen 0%nat Hin) as [a [b [c [d [Hb [Hv Hi]]]]]].
  exists a, b, c, d. split; [exact Hb|].
  rewrite Hi. destruct (crop_shape image _ _ _ _ Hr Hv) as [Hl Hrows].
  split; [exact Hl|]. split; [exact Hrows|].
  unfold bbox_valid in Hv. repeat rewrite andb_true_iff in Hv. rewrite !Z.leb_le, !Z.ltb_lt in Hv.
  destruct (crop image (py_int a) (py_int b) (py_int c) (py_int d)) as [|r rs] eqn:Ec.
  - simpl in Hl. lia.
  - apply (size_pos _ r rs eq_refl). rewrite (Hrows r (or_introl eq_refl)). lia.
Qed.

Lemma drop_spaces_app_ns l c r :
  is_py_space c = false -> drop_spaces (l ++ c :: r) = drop_spaces l ++ c :: r.
Proof.
  intros Hc. induction l as [|x l IH]; simpl; [rewrite Hc; reflexivity|].
  destruct (is_py_space x); [exact IH|reflexivity].
Qed.

Lemma drop_spaces_head l c t : drop_spaces l = c :: t -> is_py_space c = false.
Proof.
  induction l as [|x l IH]; simpl; [discriminate|].
  destruct (is_py_space x) eqn:E; [exact IH|intros H; injection H as <- _; exact E].
Qed.

Lemma drop_spaces_split l : exists p, l = p ++ drop_spaces l /\ forallb is_py_space p = true.
Proof.
  induction l as [|x l IH]; simpl; [exists []; split; reflexivity|].
  destruct (is_py_space x) eqn:E.
  - destruct IH as [p [Hp Hs]]. exists (x :: p). simpl. rewrite E, <- Hp. split; [reflexivity|exact Hs].
  - exists []. split; reflexivity.
Qed.

Lemma drop_spaces_nonempty l :
  existsb (fun c => negb (is_py_space c)) l = true -> drop_spaces l <> [].
Proof.
  induction l as [|x l IH]; simpl; [discriminate|].
  destruct (is_py_space x); simpl; [exact IH|intros _; discriminate].
Qed.

Lemma forallb_rev {A} (f : A -> bool) l : forallb f l = true -> forallb f (rev l) = true.
Proof.
  rewrite !forallb_forall. intros H x Hx. apply H, in_rev, Hx.
Qed.

(** When the OCR text has a non-whitespace code point, the name
    [identify_card_name] returns is that text with only leading and
    trailing whitespace removed, and it neither starts nor ends with
    whitespace. *)
Theorem identify_card_name_strips env image s :
  size image <> 0 -> ocr env image = OcrText s ->
  existsb (fun c => negb (is_py_space c)) s = true ->
  exists p q,
    s = p ++ identify_card_name env image ++ q /\
    forallb is_py_space p = true /\ forallb is_py_space q = true /\
    trimmed (identify_card_name env image) = true.
Proof.
  intros Hz Ho Hx. unfold identify_card_name.
  destruct (Z.eqb_spec (size image) 0) as [E|_]; [contradiction|]. rewrite Ho.
  unfold py_strip.
  destruct (drop_spaces_split s) as [p [HL Hp]].
  pose proof (drop_spaces_nonempty s Hx) as Hne.
  destruct (drop_spaces s) as [|c M] eqn:EM; [contradiction|].
  pose proof (drop_spaces_head _ _ _ EM) as Hc.
  cbn [rev]. rewrite (drop_spaces_app_ns (rev M) c [] Hc).
  destruct (drop_spaces_split (rev M)) as [q [HM Hq]].
  set (D := drop_spaces (rev M)) in *.
  rewrite rev_app_distr. cbn [rev app]. cbv beta iota zeta.
  exists p, (rev q). split; [|split; [exact Hp|split; [apply forallb_rev, Hq|]]].
  - rewrite HL at 1. f_equal. cbn [app]. f_equal.
    rewrite <- (rev_involutive M), HM, rev_app_distr. reflexivity.
  - unfold trimmed.
    assert (Hlast : is_py_space (last (c :: rev D) c) = false).
    { destruct D as [|d D'] eqn:ED; [exact Hc|].
      assert (Hd : is_py_space d = false) by (apply (drop_spaces_head (rev M) d D'); exact ED).
      cbn [rev]. rewrite app_comm_cons, last_last. exact Hd. }
    rewrite Hc, Hlast. reflexivity.
Qed.

Lemma lstrip_app_clean l c r :
  strip_char c = false -> lstrip_chars (l ++ c :: r) = lstrip_chars l ++ c :: r.
Proof.
  intros Hc. induction l as [|x l IH]; simpl; [rewrite Hc; reflexivity|].
  destruct (strip_char x); [exact IH|reflexivity].
Qed.

Lemma lstrip_head s c t : lstrip_chars s = c :: t -> strip_char c = false.
Proof.
  induction s as [|x s IH]; simpl; [discriminate|].
  destruct (strip_char x) eqn:E; [exact IH|intros H; injection H as <- _; exact E].
Qed.

Lemma lstrip_clean s : starts_clean s = true -> lstrip_chars s = s.
Proof.
  destruct s as [|c s]; simpl; [discriminate|].
  destruct (strip_char c); simpl; [discriminate|reflexivity].
Qed.

Lemma strip_chars_clean s :
  strip_chars s <> [] -> starts_clean (strip_chars s) = true /\ ends_clean (strip_chars s) = true.
Proof.
  unfold strip_chars. destruct (lstrip_chars s) as [|c m] eqn:E; [simpl; contradiction|].
  intros _. pose proof (lstrip_head _ _ _ E) as Hc.
  cbn [rev]. rewrite (lstrip_app_clean (rev m) c [] Hc).
  split.
  - rewrite rev_app_distr. simpl. rewrite Hc. reflexivity.
  - unfold ends_clean. rewrite rev_involutive.
    destruct (lstrip_chars (rev m)) as [|d t] eqn:Ed; simpl; [rewrite Hc; reflexivity|].
    rewrite (lstrip_head _ _ _ Ed). reflexivity.
Qed.

Lemma strip_chars_fixed s :
  starts_clean s = true -> ends_clean s = true -> strip_chars s = s.
Proof.
  intros H1 H2. unfold strip_chars. rewrite (lstrip_clean s H1).
  unfold ends_clean in H2. rewrite (lstrip_clean _ H2). apply rev_involutive.
Qed.

Lemma collapse_fixed s : forall prev,
  NoDoubleUnderscore s -> (prev = true -> forall l', s <> underscore :: l') ->
  collapse_underscores prev s = s.
Proof.
  induction s as [|c s IH]; intros prev Hnd Hp; simpl; [reflexivity|].
  destruct (N.eqb c underscore) eqn:Ec.
  - apply N.eqb_eq in Ec. subst c. destruct prev.
    + exfalso. exact (Hp eq_refl s eq_refl).
    + f_equal. apply IH; [exact (no_double_suffix [underscore] s Hnd)|].
      intros _ l' E. apply (Hnd [] l'). rewrite E. reflexivity.
  - f_equal. apply IH; [exact (no_double_suffix [c] s Hnd)|].
    intros Hf; discriminate.
Qed.

Lemma replace_fixed s : forallb is_allowed s = true -> replace_disallowed s = s.
Proof.
  induction s as [|c s IH]; simpl; [reflexivity|].
  intros H. apply andb_true_iff in H as [H1 H2]. rewrite H1, (IH H2). reflexivity.
Qed.

Lemma sanitize_safe_fixed s : safe_name s -> sanitize_filename s = s.
Proof.
  intros [Hl [Ha [Hn [Hs He]]]]. unfold sanitize_filename.
  rewrite (replace_fixed s Ha).
  rewrite (collapse_fixed s false Hn (fun H => ltac:(discriminate))).
  rewrite (strip_chars_fixed s Hs He).
  destruct s as [|c s']; [discriminate Hs|]. apply firstn_all2. exact Hl.
Qed.

Lemma invalid_name_safe : safe_name (codepoints "invalid_name").
Proof.
  split; [vm_compute; lia|]. split; [reflexivity|]. split; [|split; reflexivity].
  intros p q E. vm_compute in E.
  do 12 (destruct p as [|? p]; [discriminate|injection E as _ E]).
  destruct p; discriminate.
Qed.

Lemma sanitize_short_safe s :
  (List.length (strip_chars (collapse_underscores false (replace_disallowed s))) <= max_length)%nat ->
  safe_name (sanitize_filename s).
Proof.
  unfold sanitize_filename.
  set (t := strip_chars (collapse_underscores false (replace_disallowed s))).
  intros Hl.
  assert (Hall : forallb is_allowed t = true).
  { apply forallb_forall. intros c Hc.
    apply strip_chars_incl, collapse_incl, replace_disallowed_allowed in Hc. exact Hc. }
  assert (Hnd : NoDoubleUnderscore t).
  { apply strip_chars_no_double. apply (proj1 (collapse_no_double _ false)). }
  destruct t as [|c t'] eqn:Et; [exact invalid_name_safe|].
  assert (Hcl : starts_clean (c :: t') = true /\ ends_clean (c :: t') = true).
  { rewrite <- Et. unfold t. apply strip_chars_clean. fold t. rewrite Et. discriminate. }
  rewrite (firstn_all2 _ Hl).
  split; [exact Hl|split; [exact Hall|split; [exact Hnd|exact Hcl]]].
Qed.

(** A name that [sanitize_filename] could produce (at most 200 allowed
    characters, no [__], not starting or ending with [_], [.] or [-]) is
    returned unchanged. *)
Theorem sanitize_filename_fixed_point s :
  (List.length s <= 200)%nat -> forallb is_allowed s = true -> NoDoubleUnderscore s ->
  starts_clean s = true -> ends_clean s = true ->
  sanitize_filename s = s.
Proof.
  intros Hl Ha Hn Hs He. apply sanitize_safe_fixed. repeat split; assumption.
Qed.

(** The result of [sanitize_filename] never starts with [_], [.] or [-],
    also after truncation to 200 characters. *)
Theorem sanitize_filename_starts_clean s : starts_clean (sanitize_filename s) = true.
Proof.
  unfold sanitize_filename.
  destruct (strip_chars (collapse_underscores false (replace_disallowed s))) as [|c t] eqn:Et;
    [reflexivity|].
  assert (H : strip_chars (collapse_underscores false (replace_disallowed s)) <> []) by
    (rewrite Et; discriminate).
  destruct (strip_chars_clean _ H) as [Hc _]. rewrite Et in Hc. exact Hc.
Qed.

(** When the stripped name fits in 200 characters, sanitizing twice gives
    the same name as sanitizing once. *)
Theorem sanitize_filename_idempotent s :
  (List.length (strip_chars (collapse_underscores false (replace_disallowed s))) <= 200)%nat ->
  sanitize_filename (sanitize_filename s) = sanitize_filename s.
Proof.
  intros H. apply sanitize_safe_fixed, sanitize_short_safe, H.
Qed.

(** Truncation to 200 characters happens after stripping, so the result can
    end with [_]; such a result is changed by a second sanitization. *)
Theorem sanitize_filename_truncation_trailing :
  exists s, ends_clean (sanitize_filename s) = false /\
    sanitize_filename (sanitize_filename s) <> sanitize_filename s.
Proof.
  exists (repeat 97%N 199 ++ [95%N; 98%N]). split; [vm_compute; reflexivity|].
  intros H. apply (f_equal (@List.length N)) in H. vm_compute in H. discriminate.
Qed.

(** Every entry [run_inference] returns is an entry of [segment_cards] with
    a confidence at or above the threshold. *)
Theorem run_inference_entries env image t D logs l :
  segment_cards env image = Ok (D, logs) -> run_inference env image t = Ok l ->
  forall d, In d l -> In d D /\ exists c, si_confidence d = Some c /\ (t <= c)%Q.
Proof.
  intros Hs Hr d Hd. unfold run_inference in Hr. rewrite Hs in Hr.
  destruct D as [|d0 D']; injection Hr as <-; [destruct Hd|].
  unfold confidence_filter in Hd.
  destruct (existsb _ _); [destruct Hd|].
  apply filter_In in Hd as [Hin Hc]. split; [exact Hin|].
  destruct (si_confidence d) as [c|]; [|discriminate].
  exists c. split; [reflexivity|]. apply Qle_bool_iff, Hc.
Qed.

Lemma filter_comp {A} (f g : A -> bool) l :
  filter g (filter f l) = filter (fun x => f x && g x) l.
Proof.
  induction l as [|x l IH]; simpl; [reflexivity|].
  destruct (f x); simpl; [destruct (g x); simpl|]; rewrite IH; reflexivity.
Qed.

(** Raising the threshold only filters the earlier result further. *)
Theorem run_inference_threshold_monotone env image t1 t2 l :
  (t1 <= t2)%Q -> run_inference env image t1 = Ok l ->
  run_inference env image t2 =
    Ok (filter (fun d => match si_confidence d with
                         | Some c => Qle_bool t2 c | None => false end) l).
Proof.
  intros Ht Hr. unfold run_inference in *.
  destruct (segment_cards env image) as [[D logs]|e]; [|discriminate].
  destruct D as [|d0 D']; injection Hr as <-; [reflexivity|].
  unfold confidence_filter.
  destruct (existsb _ _); [reflexivity|].
  f_equal. rewrite filter_comp. apply filter_ext. intros d.
  destruct (si_confidence d) as [c|]; [|reflexivity].
  destruct (Qle_bool t2 c) eqn:E2; [|rewrite andb_false_r; reflexivity].
  rewrite andb_true_r. symmetry. apply Qle_bool_iff. apply Qle_bool_iff in E2. apply (Qle_trans _ t2); assumption.
Qed.

Lemma has_double_false l : has_double l = false -> NoDoubleUnderscore l.
Proof.
  induction l as [|a l IH]; intros H p q E.
  - destruct p; discriminate.
  - destruct p as [|x p].
    + injection E as -> E'. subst l. discriminate H.
    + injection E as -> E'. apply (IH) with (p := p) (q := q); [|exact E'].
      destruct l as [|b l]; [reflexivity|].
      cbn [has_double] in H. apply orb_false_iff in H. exact (proj2 H).
Qed.

Import SegmenterDemo.

Lemma demo_image_rectangular : rectangular demo_image.
Proof.
  intros r Hr. unfold demo_image in Hr. apply repeat_spec in Hr. subst r. reflexivity.
Qed.

Lemma segment_cards_crop_shape_witness :
  exists a b c d, si_bbox entry_a = (a, b, c, d) /\
    List.length (si_image entry_a) = Z.to_nat (py_int d - py_int b) /\
    (forall row, In row (si_image entry_a) -> List.length row = Z.to_nat (py_int c - py_int a)) /\
    0 < size (si_image entry_a).
Proof.
  apply (segment_cards_crop_shape (demo_seg_env [det_a]) demo_image
           (fst (segment_loop (demo_seg_env [det_a]) demo_image 0 [det_a]))
           (snd (segment_loop (demo_seg_env [det_a]) demo_image 0 [det_a]))).
  - exact demo_image_rectangular.
  - reflexivity.
  - vm_compute. left. reflexivity.
Defined.

Lemma identify_card_name_strips_witness :
  exists p q,
    (160 :: codepoints "Elsa - Snow Queen" ++ [32; 12288])%N =
      p ++ identify_card_name (mkSegEnv (fun _ => Ok NoResults)
              (fun _ => OcrText (160 :: codepoints "Elsa - Snow Queen" ++ [32; 12288])%N))
              demo_image ++ q /\
    forallb is_py_space p = true /\ forallb is_py_space q = true /\
    trimmed (identify_card_name (mkSegEnv (fun _ => Ok NoResults)
               (fun _ => OcrText (160 :: codepoints "Elsa - Snow Queen" ++ [32; 12288])%N))
               demo_image) = true.
Proof.
  apply identify_card_name_strips; [vm_compute; discriminate|reflexivity|reflexivity].
Defined.

Lemma sanitize_filename_fixed_point_witness :
  sanitize_filename (codepoints "Elsa_Snow-Queen.png") = codepoints "Elsa_Snow-Queen.png".
Proof.
  apply sanitize_filename_fixed_point.
  - apply Nat.leb_le. reflexivity.
  - reflexivity.
  - apply has_double_false. reflexivity.
  - reflexivity.
  - reflexivity.
Defined.

Lemma sanitize_filename_idempotent_witness :
  sanitize_filename (sanitize_filename (codepoints "Elsa - Snow Queen!")) =
    sanitize_filename (codepoints "Elsa - Snow Queen!").
Proof.
  apply sanitize_filename_idempotent. apply Nat.leb_le. reflexivity.
Defined.

Lemma run_inference_entries_witness :
  In entry_a (fst (segment_loop (demo_seg_env [det_a; det_b]) demo_image 0 [det_a; det_b])) /\
  exists c, si_confidence entry_a = Some c /\ (85 # 100 <= c)%Q.
Proof.
  apply (run_inference_entries (demo_seg_env [det_a; det_b]) demo_image (85 # 100)
           (fst (segment_loop (demo_seg_env [det_a; det_b]) demo_image 0 [det_a; det_b]))
           (snd (segment_loop (demo_seg_env [det_a; det_b]) demo_image 0 [det_a; det_b]))
           [entry_a; entry_a]).
  - reflexivity.
  - vm_compute. reflexivity.
  - left. reflexivity.
Defined.

Lemma run_inference_threshold_monotone_witness :
  run_inference (demo_seg_env [det_a; det_b]) demo_image (85 # 100) =
    Ok (filter (fun d => match si_confidence d with
                         | Some c => Qle_bool (85 # 100) c | None => false end)
               (fst (segment_loop (demo_seg_env [det_a; det_b]) demo_image 0 [det_a; det_b]))).
Proof.
  apply (run_inference_threshold_monotone _ _ (7 # 10)).
  - apply Qle_bool_iff. reflexivity.
  - vm_compute. reflexivity.
Defined.

End SegmenterExtra.

(** ** Further properties of the card data fetcher *)

Module FetcherExtra.
Import Fetcher.
Local Open Scope Z_scope.

Lemma filter_by_names_incl names v c : In c (filter_by_names names v) -> In c v.
Proof.
  destruct names as [|n ns]; simpl; [exact id|].
  intros H. apply filter_In in H as [H _]. exact H.
Qed.

Lemma filter_by_names_name names v c :
  names <> [] -> In c (filter_by_names names v) -> name_in c names = true.
Proof.
  destruct names as [|n ns]; [contradiction|]. intros _ H.
  apply filter_In in H as [_ H]. exact H.
Qed.

Lemma api_filter_valid raw :
  forallb validate_card_data_entry
    (filter (fun c => is_dict c && validate_card_data_entry c) raw) = true.
Proof.
  induction raw as [|c raw IH]; simpl; [reflexivity|].
  destruct (is_dict c && validate_card_data_entry c) eqn:E; simpl; [|exact IH].
  apply andb_prop in E as [_ E]. rewrite E. exact IH.
Qed.

Lemma try_cache_valid env fs now v :
  try_cache env fs now = Some v -> forallb validate_card_data_entry v = true.
Proof.
  unfold try_cache. destruct (is_cache_valid env fs now); [|discriminate].
  destruct fs as [f|]; [|discriminate].
  destruct (load_from_cache f) as [items|]; [|discriminate].
  destruct (forallb is_dict items); [|discriminate].
  intros [= <-]. apply forallb_forall. intros c Hc. apply filter_In in Hc as [_ Hc]. exact Hc.
Qed.

Lemma fetch_ok_source env fs now names l fs' n :
  fetch_card_data env fs now names = (Ok l, fs', n) ->
  exists V, l = filter_by_names names V /\ forallb validate_card_data_entry V = true.
Proof.
  unfold fetch_card_data. destruct (try_cache env fs now) as [v|] eqn:Ec.
  - intros [= <- _ _]. exists v. split; [reflexivity|exact (try_cache_valid _ _ _ _ Ec)].
  - unfold fetch_from_api, save_to_cache.
    destruct (api_response env) as [|[[| | | | raw |]|]]; try discriminate.
    destruct (cache_write env) as [| |w]; [|discriminate|discriminate].
    intros [= <- _ _]. eexists. split; [reflexivity|apply api_filter_valid].
Qed.

(** Every card [fetch_card_data] returns, from the cache or from the API,
    is a dict with the keys [name], [type] and [set]. *)
Theorem fetch_card_data_entries_valid env fs now names l fs' n c :
  fetch_card_data env fs now names = (Ok l, fs', n) -> In c l ->
  exists fields, c = JObj fields /\
    has_key "name" fields = true /\ has_key "type" fields = true /\ has_key "set" fields = true.
Proof.
  intros H Hin. destruct (fetch_ok_source _ _ _ _ _ _ _ H) as [V [-> HV]].
  apply filter_by_names_incl in Hin.
  pose proof (proj1 (forallb_forall _ _) HV c Hin) as Hc.
  destruct c as [| | | | |fields]; try discriminate.
  exists fields. unfold validate_card_data_entry in Hc. simpl in Hc.
  destruct (has_key "name" fields), (has_key "type" fields), (has_key "set" fields);
    try discriminate. auto.
Qed.

(** With a non-empty list of names, every card returned has one of them
    as its [name]. *)
Theorem fetch_card_data_names_match env fs now names l fs' n c :
  names <> [] -> fetch_card_data env fs now names = (Ok l, fs', n) -> In c l ->
  name_in c names = true.
Proof.
  intros Hn H Hin. destruct (fetch_ok_source _ _ _ _ _ _ _ H) as [V [-> _]].
  exact (filter_by_names_name _ _ _ Hn Hin).
Qed.

(** The names only filter the result: the cache file afterwards, the
    network requests and any error are those of the call with no names. *)
Theorem fetch_card_data_names_filter env fs now names :
  fetch_card_data env fs now names =
    (match fst (fst (fetch_card_data env fs now [])) with
     | Ok l => Ok (filter_by_names names l)
     | Err e => Err e
     end,
     snd (fst (fetch_card_data env fs now [])), snd (fetch_card_data env fs now [])).
Proof.
  unfold fetch_card_data. destruct (try_cache env fs now); [reflexivity|].
  unfold fetch_from_api, save_to_cache.
  destruct (api_response env) as [|[[| | | | raw |]|]]; try reflexivity.
  destruct (cache_write env); reflexivity.
Qed.

(** A call that changes the cache file went to the network (one request)
    and either wrote exactly the validated cards it serves, stamped with
    the current time, or raised [CacheError] from a [json.dump] that
    failed after [open] had truncated the file, which it leaves stamped
    with the current time and holding what was written. Any other call
    that raises leaves the file as it was. *)
Theorem fetch_card_data_cache_write env fs now names r fs' n :
  fetch_card_data env fs now names = (r, fs', n) ->
  (forall e, r = Err e ->
     fs' = fs \/
     (e = CacheError /\ n = 1%nat /\
      exists w, cache_write env = DumpFails w /\ fs' = Some (mkCacheFile now w))) /\
  (fs' = fs \/
   (n = 1%nat /\
    ((exists V, fs' = Some (mkCacheFile now (Parsed (JArr V))) /\
        forallb validate_card_data_entry V = true /\ r = Ok (filter_by_names names V)) \/
     (r = Err CacheError /\
      exists w, cache_write env = DumpFails w /\ fs' = Some (mkCacheFile now w))))).
Proof.
  unfold fetch_card_data. destruct (try_cache env fs now) as [v|].
  { intros [= <- <- <-]. split; [intros; left; reflexivity|left; reflexivity]. }
  unfold fetch_from_api, save_to_cache.
  destruct (api_response env) as [|[[| | | | raw |]|]];
    try (intros [= <- <- <-]; split; [intros; left; reflexivity|left; reflexivity]).
  destruct (cache_write env) as [| |w].
  - intros [= <- <- <-]. split; [intros e He; discriminate He|].
    right. split; [reflexivity|]. left. eexists. split; [reflexivity|].
    split; [apply api_filter_valid|reflexivity].
  - intros [= <- <- <-]. split; [intros; left; reflexivity|left; reflexivity].
  - intros [= <- <- <-]. split.
    + intros e [= <-]. right. split; [reflexivity|]. split; [reflexivity|].
      exists w. split; reflexivity.
    + right. split; [reflexivity|]. right. split; [reflexivity|].
      exists w. split; reflexivity.
Qed.

(** A cache file that decodes to something other than a list of dicts is
    ignored: the call does what it does with no cache, one network
    request included. *)
Theorem fetch_card_data_malformed_cache env f now names v :
  content f = Parsed v ->
  (forall items, v = JArr items -> existsb (fun c => negb (is_dict c)) items = true) ->
  fetch_card_data env (Some f) now names =
    (let '(r, fs') := fetch_from_api env (Some f) now names in (r, fs', 1%nat)).
Proof.
  intros Hc Hv. unfold fetch_card_data, try_cache, load_from_cache. rewrite Hc.
  destruct (is_cache_valid env (Some f) now); [|reflexivity].
  destruct v as [| | | |items|]; try reflexivity.
  destruct (forallb is_dict items) eqn:Ef; [|reflexivity].
  exfalso. destruct (proj1 (existsb_exists _ _) (Hv items eq_refl)) as [c [Hin Hn]].
  rewrite (proj1 (forallb_forall _ _) Ef c Hin) in Hn. discriminate.
Qed.

Import FetcherDemo.

Lemma fetch_card_data_entries_valid_witness :
  exists fields, card_elsa = JObj fields /\
    has_key "name" fields = true /\ has_key "type" fields = true /\ has_key "set" fields = true.
Proof.
  apply (fetch_card_data_entries_valid demo_fetch_env None 1000 [] [card_elsa]
           (Some (mkCacheFile 1000 (Parsed (JArr [card_elsa])))) 1%nat).
  - reflexivity.
  - left. reflexivity.
Defined.

Lemma fetch_card_data_names_match_witness : name_in card_elsa ["Elsa"%string] = true.
Proof.
  apply (fetch_card_data_names_match demo_fetch_env None 1000 ["Elsa"%string] [card_elsa]
           (Some (mkCacheFile 1000 (Parsed (JArr [card_elsa])))) 1%nat).
  - discriminate.
  - reflexivity.
  - left. reflexivity.
Defined.

Lemma fetch_card_data_cache_write_witness :
  (forall e, @Err (list json) FetchError CacheError = Err e ->
     Some (mkCacheFile 1000 Unreadable) = cache_at_0 \/
     (e = CacheError /\ 1%nat = 1%nat /\
      exists w, cache_write diskfull_fetch_env = DumpFails w /\
        Some (mkCacheFile 1000 Unreadable) = Some (mkCacheFile 1000 w))) /\
  (Some (mkCacheFile 1000 Unreadable) = cache_at_0 \/
   (1%nat = 1%nat /\
    ((exists V, Some (mkCacheFile 1000 Unreadable) = Some (mkCacheFile 1000 (Parsed (JArr V))) /\
        forallb validate_card_data_entry V = true /\
        @Err (list json) FetchError CacheError = Ok (filter_by_names [] V)) \/
     (@Err (list json) FetchError CacheError = Err CacheError /\
      exists w, cache_write diskfull_fetch_env = DumpFails w /\
        Some (mkCacheFile 1000 Unreadable) = Some (mkCacheFile 1000 w))))).
Proof.
  apply (fetch_card_data_cache_write diskfull_fetch_env cache_at_0 1000 []). reflexivity.
Defined.

Lemma fetch_card_data_malformed_cache_witness :
  fetch_card_data demo_fetch_env (Some mixed_cache) 60 [] =
    (let '(r, fs') := fetch_from_api demo_fetch_env (Some mixed_cache) 60 [] in (r, fs', 1%nat)).
Proof.
  apply (fetch_card_data_malformed_cache _ _ _ _ (JArr [card_elsa; JNum 3])).
  - reflexivity.
  - intros items H. injection H as <-. reflexivity.
Defined.

End FetcherExtra.

(** ** Properties of the data extraction *)

Module ExtractionExtra.
Import Fetcher Extraction.

Lemma extract_data_eq lookup texts :
  extract_data lookup texts =
    filter truthy (map (get_card_details lookup)
                     (filter nonblank (map Segmenter.py_strip texts))).
Proof.
  induction texts as [|t texts IH]; [reflexivity|].
  cbn [extract_data map filter].
  destruct (Segmenter.py_strip t) as [|c r]; cbn [nonblank]; [exact IH|].
  cbn [map filter app]. rewrite IH.
  destruct (truthy (get_card_details lookup (c :: r))); reflexivity.
Qed.

(** Every returned detail is the non-empty answer of a successful request
    for a non-blank text: a failed request contributes nothing. *)
Theorem extract_data_entries lookup texts d :
  In d (extract_data lookup texts) ->
  exists t, In t texts /\ Segmenter.py_strip t <> [] /\
    lookup (Segmenter.py_strip t) = Some d /\ truthy d = true.
Proof.
  rewrite extract_data_eq. intros H.
  apply filter_In in H as [H Ht].
  apply in_map_iff in H as [n [Hd Hn]].
  apply filter_In in Hn as [Hn Hne].
  apply in_map_iff in Hn as [t [<- Hin]].
  exists t. split; [exact Hin|]. split.
  - intros E. rewrite E in Hne. discriminate.
  - unfold get_card_details in Hd.
    destruct (lookup (Segmenter.py_strip t)) as [j|]; [subst j; auto|].
    subst d. discriminate.
Qed.

Import FetcherDemo.

Lemma extract_data_entries_witness :
  exists t, In t [(160 :: Segmenter.codepoints "Elsa" ++ [12288])%N; [32; 160]%N;
                  Segmenter.codepoints "Nobody"] /\
    Segmenter.py_strip t <> [] /\
    elsa_lookup (Segmenter.py_strip t) = Some card_elsa /\ truthy card_elsa = true.
Proof.
  apply (extract_data_entries elsa_lookup
           [(160 :: Segmenter.codepoints "Elsa" ++ [12288])%N; [32; 160]%N;
            Segmenter.codepoints "Nobody"]).
  vm_compute. left. reflexivity.
Defined.

End ExtractionExtra.
